(** * RmfLoader: the decoding engine of rmf-glib

    A shallow embedding of [src/rmf/rmf-loader.c]: the bounds-checked cursor
    ([rmf_loader_read]), the header check of [rmf_loader_load_from_file] and
    the structural trace ([rmf_loader_log_begin], [rmf_loader_log_oneline],
    [rmf_loader_log_end]).

    The loader is a C object mutated in place; here every operation is a
    function from the loader to an [outcome]: either the call returns, with
    the loader as it left it and the messages it handed to GLib's logging
    functions, or the call has no defined continuation (a null pointer given
    to [memcpy], [g_error]). *)

From Stdlib Require Import ZArith List Bool Lia.
From Stdlib Require Import Strings.String Strings.Ascii Strings.Byte.
From Stdlib Require Import DecimalString HexadecimalString.
From Stdlib Require Import Floats.SpecFloat.
Import ListNotations.

Local Open Scope string_scope.
Local Open Scope Z_scope.

(** ** Machine integers *)

Definition G_MAXUINT : Z := 2 ^ 32 - 1.
Definition G_MAXSIZE : Z := 2 ^ 64 - 1.
Definition G_MAXOFFSET : Z := 2 ^ 63 - 1.
Definition G_MINOFFSET : Z := - 2 ^ 63.

(** Conversion to [guint] (32 bits, unsigned). *)
Definition to_guint (z : Z) : Z := z mod 2 ^ 32.

(** Conversion to [gsize] / [size_t] (64 bits, unsigned). *)
Definition to_gsize (z : Z) : Z := z mod 2 ^ 64.

(** Conversion to [goffset] ([gint64]: 64 bits, two's complement). *)
Definition to_goffset (z : Z) : Z := (z + 2 ^ 63) mod 2 ^ 64 - 2 ^ 63.

(** ** Text *)

(** The double-quote character (code 34), which the loader puts around
    attribute values and around the magic number it reports. *)
Definition dquote : string := String (ascii_of_nat 34) EmptyString.

(** [n] spaces. *)
Fixpoint spaces (n : nat) : string :=
  match n with
  | O => EmptyString
  | S k => String " "%char (spaces k)
  end.

(** [n] zeros. *)
Fixpoint zeros (n : nat) : string :=
  match n with
  | O => EmptyString
  | S k => String "0"%char (zeros k)
  end.

(** printf's [%s]: glibc prints a null pointer as [(null)]. *)
Definition fmt_s (s : option string) : string :=
  match s with
  | Some str => str
  | None => "(null)"
  end.

(** The decimal digits of a natural number, no sign, no padding. *)
Definition dec_digits (n : N) : string :=
  DecimalString.NilZero.string_of_uint (N.to_uint n).

(** printf's [%0<width>li]: signed decimal, padded with zeros on the left up
    to [width] characters, the sign counted in the width; never truncated. *)
Definition fmt_0li (width : nat) (v : Z) : string :=
  let digits := dec_digits (Z.abs_N v) in
  if v <? 0
  then "-" ++ zeros (width - 1 - String.length digits)%nat ++ digits
  else zeros (width - String.length digits)%nat ++ digits.

(** printf's [%.<prec>s] on a [char] array that need not be terminated: the
    characters up to the first NUL, [prec] at most. *)
Fixpoint fmt_prec_s (prec : nat) (chars : list byte) : string :=
  match prec, chars with
  | S p, c :: rest =>
      if Byte.eqb c x00 then EmptyString
      else String (ascii_of_byte c) (fmt_prec_s p rest)
  | _, _ => EmptyString
  end.

(** The bytes of a C string literal. *)
Definition bytes_of_string (s : string) : list byte := list_byte_of_string s.

(** ** What a call hands to GLib's output functions *)

Inductive event : Type :=
| Info (line : string)      (* g_info: one diagnostic line *)
| Printerr (text : string)  (* g_printerr *)
| Critical (text : string). (* a failed g_return_if_fail / g_return_val_if_fail *)

(** Why a call has no continuation. *)
Inductive fault : Type :=
| NullRead    (* a null pointer is read through *)
| Overrun     (* memcpy beyond the end of a buffer *)
| ArrayFull.  (* g_ptr_array_add on G_MAXUINT elements: g_error aborts *)

(** An argument passed through [...] to a printf-like function. *)
Inductive va_item : Type :=
| va_string (s : option string)
| va_int (z : Z)
| va_double (f : spec_float).

(** ** The version number *)

(** [rmf_float] is a 32-bit IEEE-754 number; its values are written as
    [spec_float], sign, significand and exponent, in the normal form that
    [SFcompare] compares. *)
Definition rmf_float : Type := spec_float.

(** The binary32 number with bit pattern [w]. *)
Definition float_of_bits (w : Z) : rmf_float :=
  let s := Z.testbit w 31 in
  let e := Z.land (Z.shiftr w 23) 255 in
  let m := Z.land w (2 ^ 23 - 1) in
  if e =? 0 then
    if m =? 0 then S754_zero s else S754_finite s (Z.to_pos m) (-149)
  else if e =? 255 then
    if m =? 0 then S754_infinity s else S754_nan
  else S754_finite s (Z.to_pos (m + 2 ^ 23)) (e - 150).

(** The unsigned number that bytes hold, least significant byte first. *)
Fixpoint le_word (bs : list byte) : Z :=
  match bs with
  | [] => 0
  | b :: rest => Z.of_N (Byte.to_N b) + 256 * le_word rest
  end.

(** [1.6f]: the binary32 number nearest to 1.6, 13421773 * 2^-23
    (bit pattern 0x3FCCCCCD). *)
Definition RMF_MIN_SUPPORTED_VERSION : rmf_float :=
  S754_finite false 13421773 (-23).

(** [2.2f]: the binary32 number nearest to 2.2, 9227469 * 2^-22
    (bit pattern 0x400CCCCD). *)
Definition RMF_MAX_SUPPORTED_VERSION : rmf_float :=
  S754_finite false 9227469 (-22).

(** The test of [rmf_loader_load_from_file] on the decoded version:
    [version < RMF_MIN_SUPPORTED_VERSION || version > RMF_MAX_SUPPORTED_VERSION]. *)
Definition version_unsupported (v : rmf_float) : bool :=
  SFltb v RMF_MIN_SUPPORTED_VERSION || SFltb RMF_MAX_SUPPORTED_VERSION v.

(** ** Files *)

Record GError : Type := mkGError {
  error_domain : string;
  error_code : Z;
  error_message : string
}.

(** A [GFile] as the loader meets it: what [g_file_load_bytes] yields, the
    contents or an error, and what [g_filename_display_basename] makes of
    its path. *)
Record GFile : Type := mkGFile {
  file_contents : GError + list byte;
  file_display_basename : option string
}.

(** [g_file_load_bytes (file, nullptr, nullptr, error)]: the bytes, or NULL
    with the error stored where [error] points, if it points anywhere. *)
Definition g_file_load_bytes (file : GFile) (error : option (option GError))
  : option (list byte) * option (option GError) :=
  match file_contents file with
  | inr bytes => (Some bytes, error)
  | inl e => (None, match error with
                    | Some _ => Some (Some e)
                    | None => None
                    end)
  end.

(** ** GLib's byte buffer *)

(** [g_bytes_get_region] (GLib, gbytes.c) on a non-null [GBytes]: the region
    of [n_elements] elements of [element_size] bytes at [offset], or NULL
    ([None]) when a size computation overflows [gsize] or the region does not
    lie within the buffer. All three arguments are [gsize] values. *)
Definition g_bytes_get_region (bytes : list byte)
    (element_size offset n_elements : Z) : option (list byte) :=
  if element_size <=? 0 then None
  else
    let total_size := element_size * n_elements in
    if G_MAXSIZE <? total_size then None
    else
      let end_offset := offset + total_size in
      if G_MAXSIZE <? end_offset then None
      else if Z.of_nat (List.length bytes) <? end_offset then None
      else Some (firstn (Z.to_nat total_size) (skipn (Z.to_nat offset) bytes)).

(** [memcpy dest src n] on a destination buffer holding [dest]: the first
    [n] bytes are replaced by those of [src]. Copying nothing touches
    neither pointer; otherwise a null [src] is read through, and a buffer
    shorter than [n] is overrun. *)
Definition memcpy (dest : list byte) (src : option (list byte)) (n : Z)
  : fault + list byte :=
  if n =? 0 then inr dest
  else match src with
       | None => inl NullRead
       | Some s =>
           if (Z.of_nat (List.length s) <? n) || (Z.of_nat (List.length dest) <? n)
           then inl Overrun
           else inr (firstn (Z.to_nat n) s ++ skipn (Z.to_nat n) dest)%list
       end.

(** The bytes of the buffer a pointer designates, none for a null pointer. *)
Definition contents (p : option (list byte)) : list byte :=
  match p with
  | Some buf => buf
  | None => []
  end.

(** [memcmp a b n <> 0] on buffers of at least [n] bytes. *)
Definition memcmp_differs (a b : list byte) (n : nat) : bool :=
  negb (if list_eq_dec Byte.byte_eq_dec (firstn n a) (firstn n b) then true else false).

(** ** The loader *)

Section Loader.

(** The record tree built from the data is the business of rmf-root.c. *)
Variable RmfRoot : Type.

(** [struct _RmfLoader]. A pointer field that may be null is an [option];
    the tag stack is the [GPtrArray] of tag names, innermost last. *)
Record RmfLoader : Type := mkLoader {
  source : option string;
  data : option (list byte);
  offset : Z;
  tag_stack : list string;
  version : rmf_float;
  root : option RmfRoot
}.

Definition with_source (s : option string) (l : RmfLoader) : RmfLoader :=
  mkLoader s (data l) (offset l) (tag_stack l) (version l) (root l).
Definition with_data (d : option (list byte)) (l : RmfLoader) : RmfLoader :=
  mkLoader (source l) d (offset l) (tag_stack l) (version l) (root l).
Definition with_offset (o : Z) (l : RmfLoader) : RmfLoader :=
  mkLoader (source l) (data l) o (tag_stack l) (version l) (root l).
Definition with_tag_stack (s : list string) (l : RmfLoader) : RmfLoader :=
  mkLoader (source l) (data l) (offset l) s (version l) (root l).
Definition with_version (v : rmf_float) (l : RmfLoader) : RmfLoader :=
  mkLoader (source l) (data l) (offset l) (tag_stack l) v (root l).
Definition with_root (r : option RmfRoot) (l : RmfLoader) : RmfLoader :=
  mkLoader (source l) (data l) (offset l) (tag_stack l) (version l) r.

(** The result of calling a function of the loader. *)
Inductive outcome (A : Type) : Type :=
| Returns (a : A) (self : RmfLoader) (log : list event)
| Faults (why : fault).
Arguments Returns {A} a self log.
Arguments Faults {A} why.

(** A function of the loader: it may change [self], log, and go wrong. *)
Definition M (A : Type) : Type := RmfLoader -> outcome A.

Definition ret {A} (a : A) : M A := fun self => Returns a self [].

Definition bind {A B} (m : M A) (k : A -> M B) : M B :=
  fun self =>
    match m self with
    | Faults why => Faults why
    | Returns a self1 log1 =>
        match k a self1 with
        | Faults why => Faults why
        | Returns b self2 log2 => Returns b self2 (log1 ++ log2)%list
        end
    end.

Definition emit (e : event) : M unit := fun self => Returns tt self [e].
Definition fail {A} (why : fault) : M A := fun _ => Faults why.
Definition get {A} (field : RmfLoader -> A) : M A := fun self => Returns (field self) self [].
Definition update (f : RmfLoader -> RmfLoader) : M unit := fun self => Returns tt (f self) [].

Notation "x <- m ;; k" := (bind m (fun x => k))
  (at level 61, m at next level, right associativity).
Notation "m ;;; k" := (bind m (fun _ => k))
  (at level 61, right associativity).

(** *** The cursor *)

(** [rmf_loader_set_offset]: [g_object_set] on the offset property, whose
    setter stores the value in the [goffset] field. *)
Definition rmf_loader_set_offset (off : Z) : M unit :=
  update (with_offset (to_goffset off)).

(** [rmf_loader_read (self, n, dest)]. [dest] is the buffer the pointer
    designates, [None] for a null pointer; the value returned is the buffer
    after the call. The region pointer is given to [memcpy] as it comes. *)
Definition rmf_loader_read (n : Z) (dest : option (list byte)) : M (option (list byte)) :=
  match dest with
  | None =>
      emit (Critical "rmf_loader_read: assertion 'dest' failed") ;;; ret None
  | Some buf =>
      bytes <- get data ;;
      off <- get offset ;;
      match bytes with
      | None => fail NullRead
      | Some b =>
          let src := g_bytes_get_region b 1 (to_gsize off) n in
          match memcpy buf src n with
          | inl why => fail why
          | inr buf' =>
              update (with_offset (to_goffset (off + n))) ;;;
              ret (Some buf')
          end
      end
  end.

(** *** The trace *)

(** The variadic tail of the log functions is [attr, fmt, args..., attr, fmt,
    args..., nullptr]: one group per attribute, with the arguments that its
    format consumes, the null sentinel being the end of the list. *)
Record attr : Type := mkAttr {
  attr_name : string;
  attr_fmt : string;
  attr_args : list va_item
}.

(** [g_strdup_vprintf] (GLib over the C library) on the formats that callers
    supply. *)
Variable g_strdup_vprintf : string -> list va_item -> string.

(** [g_strjoin (nullptr, ...)] and [g_strjoinv (nullptr, ...)]: the pieces
    one after the other. *)
Definition g_strjoin (pieces : list string) : string :=
  String.concat EmptyString pieces.

(** [make_tag]: the tag name, then one [attr=value] word per attribute, the
    value between double quotes, separated by single spaces. The attribute
    name is part of the format given to printf. *)
Definition make_tag (tag : string) (ap : list attr) : string :=
  let word (a : attr) :=
    let fmt := g_strjoin [attr_name a; "=" ++ dquote; attr_fmt a; dquote] in
    g_strdup_vprintf fmt (attr_args a) in
  String.concat " " (tag :: List.map word ap).

Definition INDENT_WIDTH : Z := 2.

(** [indent (n, str)]: the loop adds one space per iteration while
    [i < n * INDENT_WIDTH], a product of [unsigned int]. *)
Definition indent (n : Z) (str : string) : string :=
  let count := Z.to_nat (to_guint (n * INDENT_WIDTH)) in
  g_strjoin (List.repeat " " count ++ [str]).

(** The [len] field of the tag stack, a [guint]. *)
Definition tag_stack_len (self : RmfLoader) : Z :=
  to_guint (Z.of_nat (List.length (tag_stack self))).

(** [g_ptr_array_add (self->tag_stack, tag)] (GLib, garray.c): an array of
    [G_MAXUINT] pointers cannot grow, [g_error] aborts. *)
Definition g_ptr_array_add (tag : string) : M unit :=
  stack <- get tag_stack ;;
  if G_MAXUINT <=? Z.of_nat (List.length stack)
  then fail ArrayFull
  else update (with_tag_stack (stack ++ [tag])).

(** [g_ptr_array_remove_index (self->tag_stack, index_)] (GLib, garray.c):
    the pointer at [index_] is removed and returned; an index that is not
    below [len] fails the argument check of the function, which, in GLib as
    it is built by default, logs a critical message and returns NULL, the
    array left as it is. *)
Definition g_ptr_array_remove_index (index_ : Z) : M (option string) :=
  stack <- get tag_stack ;;
  if index_ <? Z.of_nat (List.length stack)
  then
    let i := Z.to_nat index_ in
    update (with_tag_stack (firstn i stack ++ skipn (S i) stack)) ;;;
    ret (nth_error stack i)
  else
    emit (Critical "ptr_array_remove_index: assertion 'index_ < rarray->len' failed") ;;;
    ret None.

(** The message of the three log functions: format
    [%s+%08 G_GOFFSET_FORMAT x: %s] on the source, the offset and the
    indented element. GLib defines [G_GOFFSET_FORMAT] as [G_GINT64_FORMAT],
    the conversion [li], so that the format is [%s+%08lix: %s]. *)
Definition log_message (self : RmfLoader) (indented : string) : string :=
  fmt_s (source self) ++ "+" ++ fmt_0li 8 (offset self) ++ "x: " ++ indented.

Definition g_info (indented : string) : M unit :=
  fun self => Returns tt self [Info (log_message self indented)].

(** [rmf_loader_log_begin (self, tag, ...)]. *)
Definition rmf_loader_log_begin (tag : string) (ap : list attr) : M unit :=
  g_ptr_array_add tag ;;;
  let result := make_tag tag ap in
  let xml := "<" ++ result ++ ">" in
  len <- get tag_stack_len ;;
  let indented := indent (to_guint (len - 1)) xml in
  g_info indented.

(** [rmf_loader_log_oneline (self, tag, content, ...)]. *)
Definition rmf_loader_log_oneline (tag : string) (content : option string)
    (ap : list attr) : M unit :=
  let result := make_tag tag ap in
  let xml :=
    match content with
    | None => "<" ++ result ++ "/>"
    | Some c => "<" ++ result ++ ">" ++ c ++ "</" ++ tag ++ ">"
    end in
  len <- get tag_stack_len ;;
  let indented := indent len xml in
  g_info indented.

(** [rmf_loader_log_end (self)]. *)
Definition rmf_loader_log_end : M unit :=
  len <- get tag_stack_len ;;
  tag <- g_ptr_array_remove_index (to_guint (len - 1)) ;;
  let xml := "</" ++ fmt_s tag ++ ">" in
  len' <- get tag_stack_len ;;
  let indented := indent len' xml in
  g_info indented.

(** A builder's calls to the trace, in order. *)
Inductive trace_call : Type :=
| LogBegin (tag : string) (ap : list attr)
| LogOneline (tag : string) (content : option string) (ap : list attr)
| LogEnd.

Definition trace_step (c : trace_call) : M unit :=
  match c with
  | LogBegin tag ap => rmf_loader_log_begin tag ap
  | LogOneline tag content ap => rmf_loader_log_oneline tag content ap
  | LogEnd => rmf_loader_log_end
  end.

Fixpoint trace_run (calls : list trace_call) : M unit :=
  match calls with
  | [] => ret tt
  | c :: rest => trace_step c ;;; trace_run rest
  end.

(** *** Loading *)

(** Modelled from the spec: [rmf_read_float], which rmf-loader.c calls and
    rmf/rmf-private.h declares, is not part of rmf-loader.c. Specification
    4.3: a primitive decoder reads the fixed encoded width of its kind with
    the cursor's read, interprets the bytes in the fixed binary layout of
    the kind, IEEE-754 single precision for a float, and writes the result
    into the output the caller provides. The bytes are taken in the order
    of the host, least significant first. The decoded number is returned
    here and stored by the caller. *)
Definition rmf_read_float : M rmf_float :=
  out <- rmf_loader_read 4 (Some [x00; x00; x00; x00]) ;;
  match out with
  | Some bs => ret (float_of_bits (le_word bs))
  | None => fail NullRead
  end.

(** [rmf_root_new (self)] of rmf-root.c: it reads and traces through the
    loader it is given and returns the root record. *)
Variable rmf_root_new : M (option RmfRoot).

Definition newline : string := String (ascii_of_nat 10) EmptyString.

Definition unsupported_version_format : string :=
  "Unsupported RMF version %g (only versions %g through %g are supported)".

(** The message printed for a version out of range. *)
Definition unsupported_version_message (v : rmf_float) : string :=
  g_strdup_vprintf unsupported_version_format
    [va_double v; va_double RMF_MIN_SUPPORTED_VERSION;
     va_double RMF_MAX_SUPPORTED_VERSION].

(** The message printed for a wrong magic number: format
    [Invalid RMF magic number <dquote>%.3s<dquote>\n]. *)
Definition invalid_magic_message (magic : list byte) : string :=
  "Invalid RMF magic number " ++ dquote ++ fmt_prec_s 3 magic ++ dquote ++ newline.

(** [rmf_loader_load_from_file (self, file, error)]. [error] is [None] for a
    null pointer, else the [GError *] it points to; the value returned is
    that location after the call. [self] and [file] are objects of the
    right types, so the first two checks pass. The array [magic] starts
    with indeterminate contents, which a read that returns overwrites. *)
Definition rmf_loader_load_from_file (file : GFile)
    (error : option (option GError)) : M (option (option GError)) :=
  match error with
  | Some (Some _) =>
      emit (Critical "rmf_loader_load_from_file: assertion 'error == nullptr || *error == nullptr' failed") ;;;
      ret error
  | _ =>
      let (bytes, error) := g_file_load_bytes file error in
      match error with
      | Some (Some _) => ret error
      | _ =>
          let source := file_display_basename file in
          update (with_source source) ;;;
          update (with_data bytes) ;;;
          rmf_loader_set_offset 0 ;;;
          v <- rmf_read_float ;;
          update (with_version v) ;;;
          v <- get version ;;
          (if version_unsupported v
           then emit (Printerr (unsupported_version_message v))
           else ret tt) ;;;
          magic <- rmf_loader_read 3 (Some [x00; x00; x00]) ;;
          let magic := contents magic in
          (if memcmp_differs magic (bytes_of_string "RMF") 3
           then emit (Printerr (invalid_magic_message magic))
           else ret tt) ;;;
          v <- get version ;;
          rmf_loader_log_begin "rmf" [mkAttr "version" "%g" [va_double v]] ;;;
          r <- rmf_root_new ;;
          update (with_root r) ;;;
          rmf_loader_log_end ;;;
          ret error
      end
  end.

End Loader.

Arguments mkLoader {RmfRoot}.
Arguments source {RmfRoot}.
Arguments data {RmfRoot}.
Arguments offset {RmfRoot}.
Arguments tag_stack {RmfRoot}.
Arguments version {RmfRoot}.
Arguments root {RmfRoot}.
Arguments with_source {RmfRoot}.
Arguments with_data {RmfRoot}.
Arguments with_offset {RmfRoot}.
Arguments with_tag_stack {RmfRoot}.
Arguments with_version {RmfRoot}.
Arguments with_root {RmfRoot}.
Arguments Returns {RmfRoot A}.
Arguments Faults {RmfRoot A}.
Arguments ret {RmfRoot A}.
Arguments bind {RmfRoot A B}.
Arguments emit {RmfRoot}.
Arguments fail {RmfRoot A}.
Arguments get {RmfRoot A}.
Arguments update {RmfRoot}.
Arguments rmf_loader_set_offset {RmfRoot}.
Arguments rmf_loader_read {RmfRoot}.
Arguments tag_stack_len {RmfRoot}.
Arguments g_ptr_array_add {RmfRoot}.
Arguments g_ptr_array_remove_index {RmfRoot}.
Arguments log_message {RmfRoot}.
Arguments g_info {RmfRoot}.
Arguments rmf_loader_log_begin {RmfRoot}.
Arguments rmf_loader_log_oneline {RmfRoot}.
Arguments rmf_loader_log_end {RmfRoot}.
Arguments trace_step {RmfRoot}.
Arguments trace_run {RmfRoot}.
Arguments rmf_read_float {RmfRoot}.
Arguments rmf_loader_load_from_file {RmfRoot}.

Notation "x <- m ;; k" := (bind m (fun x => k))
  (at level 61, m at next level, right associativity).
Notation "m ;;; k" := (bind m (fun _ => k))
  (at level 61, right associativity).

(** ** The trace as the specification words it *)

(** The nesting depth after [calls], starting at depth [d]; [None] when a
    close meets no open scope. *)
Fixpoint depth_after (d : nat) (calls : list trace_call) : option nat :=
  match calls with
  | [] => Some d
  | LogBegin _ _ :: rest => depth_after (S d) rest
  | LogOneline _ _ _ :: rest => depth_after d rest
  | LogEnd :: rest =>
      match d with
      | O => None
      | S k => depth_after k rest
      end
  end.

(** Every close is paired with a prior open, and every open is closed. *)
Definition balanced (calls : list trace_call) : bool :=
  match depth_after 0 calls with
  | Some O => true
  | _ => false
  end.

(** The deepest nesting that [calls] reach from depth [d]. *)
Fixpoint max_depth (d : nat) (calls : list trace_call) : nat :=
  match calls with
  | [] => d
  | LogBegin _ _ :: rest => Nat.max d (max_depth (S d) rest)
  | LogOneline _ _ _ :: rest => max_depth d rest
  | LogEnd :: rest => Nat.max d (max_depth (Nat.pred d) rest)
  end.

(** The text of a leaf element. *)
Definition leaf_text (result tag : string) (content : option string) : string :=
  match content with
  | None => "<" ++ result ++ "/>"
  | Some c => "<" ++ result ++ ">" ++ c ++ "</" ++ tag ++ ">"
  end.

Section SpecTrace.

Variable vprintf : string -> list va_item -> string.

(** Specification 4.4, with the open tag names innermost first: open emits
    at the depth before the push, leaf at the current depth, close at the
    depth after the pop. Each line is its recorded depth and its element
    text. *)
Fixpoint spec_lines (open_tags : list string) (calls : list trace_call)
  : list (nat * string) :=
  match calls with
  | [] => []
  | LogBegin tag ap :: rest =>
      (List.length open_tags, "<" ++ make_tag vprintf tag ap ++ ">")
        :: spec_lines (tag :: open_tags) rest
  | LogOneline tag content ap :: rest =>
      (List.length open_tags, leaf_text (make_tag vprintf tag ap) tag content)
        :: spec_lines open_tags rest
  | LogEnd :: rest =>
      match open_tags with
      | tag :: outer =>
          (List.length outer, "</" ++ tag ++ ">") :: spec_lines outer rest
      | [] => []
      end
  end.

End SpecTrace.

(** The open tag names after [calls], innermost first. *)
Fixpoint spec_open_tags (open_tags : list string) (calls : list trace_call)
  : option (list string) :=
  match calls with
  | [] => Some open_tags
  | LogBegin tag _ :: rest => spec_open_tags (tag :: open_tags) rest
  | LogOneline _ _ _ :: rest => spec_open_tags open_tags rest
  | LogEnd :: rest =>
      match open_tags with
      | _ :: outer => spec_open_tags outer rest
      | [] => None
      end
  end.

(** A diagnostic line whose element is indented by [depth] levels of
    [INDENT_WIDTH] spaces. *)
Definition trace_line {RmfRoot} (self : RmfLoader RmfRoot) (line : nat * string) : event :=
  Info (log_message self (spaces (fst line * Z.to_nat INDENT_WIDTH) ++ snd line)).

(** The number of spaces a text starts with. *)
Fixpoint leading_spaces (s : string) : nat :=
  match s with
  | String c rest => if Ascii.eqb c " " then S (leading_spaces rest) else O
  | EmptyString => O
  end.

(** Specification 6, in its words: the offset as 8 hexadecimal digits. *)
Definition spec_offset_hex8 (off : Z) : string :=
  let digits := HexadecimalString.NilZero.string_of_uint (N.to_hex_uint (Z.to_N off)) in
  zeros (8 - String.length digits) ++ digits.

(** Specification 6, in its words: source label, [+], 8 hexadecimal digits
    of offset, [x: ], indentation and element text. *)
Definition spec_log_message {RmfRoot} (self : RmfLoader RmfRoot) (indented : string) : string :=
  fmt_s (source self) ++ "+" ++ spec_offset_hex8 (offset self) ++ "x: " ++ indented.

(** The fields that the trace has no business with. *)
Definition same_cursor {RmfRoot} (self self' : RmfLoader RmfRoot) : Prop :=
  source self' = source self /\ data self' = data self
  /\ offset self' = offset self /\ version self' = version self
  /\ root self' = root self.

(** ** The header as the specification words it *)

(** The version that a file starts with. *)
Definition header_version (bytes : list byte) : rmf_float :=
  float_of_bits (le_word (firstn 4 bytes)).

(** The three bytes that follow the version. *)
Definition header_magic (bytes : list byte) : list byte :=
  firstn 3 (skipn 4 bytes).

(** The loader once the header is read and the document scope is open: the
    state in which the root builder is called. *)
Definition header_done {RmfRoot} (file : GFile) (bytes : list byte)
    (self : RmfLoader RmfRoot) : RmfLoader RmfRoot :=
  mkLoader (file_display_basename file) (Some bytes) 7
    (tag_stack self ++ ["rmf"]) (header_version bytes) (root self).

(** The line that opens the document scope. *)
Definition document_open_line {RmfRoot}
    (vprintf : string -> list va_item -> string)
    (file : GFile) (bytes : list byte) (self : RmfLoader RmfRoot) : event :=
  trace_line (header_done file bytes self)
    (List.length (tag_stack self),
     "<" ++ make_tag vprintf "rmf"
              [mkAttr "version" "%g" [va_double (header_version bytes)]] ++ ">").

(** ** Sample collaborators and inputs *)

(** A stand-in for printf in the closed examples: it prints the format as
    it stands. *)
Definition sample_vprintf (fmt : string) (args : list va_item) : string := fmt.

(** A root builder that traces one scope around the read of one byte. *)
Definition sample_root_new : M unit (option unit) :=
  rmf_loader_log_begin sample_vprintf "root" [] ;;;
  payload <- rmf_loader_read 1 (Some [x00]) ;;
  rmf_loader_log_end ;;;
  ret (Some tt).

(** A loader as [rmf_loader_new] makes it. *)
Definition fresh_loader : RmfLoader unit :=
  mkLoader None None 0 [] (S754_zero false) None.

(** A loader over the two bytes 01 02, nothing read yet. *)
Definition two_byte_loader : RmfLoader unit :=
  mkLoader (Some "a.rmf") (Some [x01; x02]) 0 [] (S754_zero false) None.

(** A loader ten bytes into its data, no scope open. *)
Definition loader_at_10 : RmfLoader unit :=
  mkLoader (Some "a.rmf") (Some (List.repeat x00 16)) 10 [] (S754_zero false) None.

(** Version 2.0, the magic number and one byte of payload. *)
Definition good_file : GFile :=
  mkGFile (inr [x00; x00; x00; x40; x52; x4d; x46; x01]) (Some "a.rmf").

(** Version 0.5, the magic number XYZ and one byte of payload. *)
Definition odd_file : GFile :=
  mkGFile (inr [x00; x00; x00; x3f; x58; x59; x5a; x01]) (Some "b.rmf").

(** A file that cannot be read. *)
Definition missing_file : GFile :=
  mkGFile (inl (mkGError "g-io-error-quark" 1 "No such file or directory"))
          (Some "c.rmf").

(** A loader ten bytes into its data, inside two scopes. *)
Definition nested_loader : RmfLoader unit :=
  mkLoader (Some "a.rmf") (Some (List.repeat x00 16)) 10 ["rmf"; "root"]
    (S754_zero false) None.

(** The contents of [good_file] and of [odd_file]. *)
Definition good_bytes : list byte := [x00; x00; x00; x40; x52; x4d; x46; x01].
Definition odd_bytes : list byte := [x00; x00; x00; x3f; x58; x59; x5a; x01].

(** The loader that [sample_root_new] leaves behind on [good_file], and what
    it has printed. *)
Definition good_built : RmfLoader unit :=
  mkLoader (Some "a.rmf") (Some good_bytes) 8 ["rmf"]
    (S754_finite false 8388608 (-22)) None.
Definition good_root_log : list event :=
  [Info "a.rmf+00000007x:   <root>"; Info "a.rmf+00000008x:   </root>"].

(** The same on [odd_file]. *)
Definition odd_built : RmfLoader unit :=
  mkLoader (Some "b.rmf") (Some odd_bytes) 8 ["rmf"]
    (S754_finite false 8388608 (-24)) None.
Definition odd_root_log : list event :=
  [Info "b.rmf+00000007x:   <root>"; Info "b.rmf+00000008x:   </root>"].

Definition sample_calls : list trace_call :=
  [LogBegin "a" [mkAttr "k" "v" []]; LogOneline "b" None [];
   LogBegin "c" []; LogOneline "d" (Some "hi") []; LogEnd; LogEnd].

(** ** The rest of the loader *)

(** [rmf_loader_init] after the zero fill of [g_object_new]: every pointer
    null, offset 0, version 0.0, and a new, empty tag stack. This is the
    loader that [rmf_loader_new] returns. *)
Definition rmf_loader_new {RmfRoot} : RmfLoader RmfRoot :=
  mkLoader None None 0 [] (S754_zero false) None.

(** [rmf_loader_seek (self, n)]: the sum [self->offset + n] of two
    [goffset] is passed to [rmf_loader_set_offset] as a [size_t]. C gives
    the sum a meaning within the range of [goffset] only; it is written here
    with the wrap-around of the machine, and the properties proved of it
    keep to sums within the range. *)
Definition rmf_loader_seek {RmfRoot} (n : Z) : M RmfRoot unit :=
  off <- get offset ;;
  rmf_loader_set_offset (to_gsize (to_goffset (off + n))).

(** *** The properties of the object *)

(** A [GValue] of one of the types that the properties of the loader have. *)
Inductive GValue (RmfRoot : Type) : Type :=
| GV_string (s : option string)
| GV_boxed (b : option (list byte))
| GV_int64 (z : Z)
| GV_float (f : rmf_float)
| GV_object (o : option RmfRoot).
Arguments GV_string {RmfRoot} s.
Arguments GV_boxed {RmfRoot} b.
Arguments GV_int64 {RmfRoot} z.
Arguments GV_float {RmfRoot} f.
Arguments GV_object {RmfRoot} o.

(** [enum RmfLoaderProperty]. *)
Definition PROP_SOURCE : Z := 1.
Definition PROP_DATA : Z := 2.
Definition PROP_OFFSET : Z := 3.
Definition PROP_VERSION : Z := 4.
Definition PROP_ROOT : Z := 5.
Definition N_PROPERTIES : Z := 6.

(** Whether a property handler knew the id, or ended in
    [G_OBJECT_WARN_INVALID_PROPERTY_ID], which warns and does nothing
    else. *)
Inductive handled : Type :=
| Handled
| InvalidPropertyId.

(** GLib's accessors of a [GValue]: on a value of another type the check
    of the accessor fails, a critical message is logged and NULL, or 0, is
    the result. *)
Definition g_value_dup_string {RmfRoot} (value : GValue RmfRoot)
  : M RmfRoot (option string) :=
  match value with
  | GV_string s => ret s
  | _ =>
      emit (Critical "g_value_dup_string: assertion 'G_VALUE_HOLDS_STRING (value)' failed") ;;;
      ret None
  end.

Definition g_value_dup_boxed {RmfRoot} (value : GValue RmfRoot)
  : M RmfRoot (option (list byte)) :=
  match value with
  | GV_boxed b => ret b
  | _ =>
      emit (Critical "g_value_dup_boxed: assertion 'G_VALUE_HOLDS_BOXED (value)' failed") ;;;
      ret None
  end.

Definition g_value_get_int64 {RmfRoot} (value : GValue RmfRoot) : M RmfRoot Z :=
  match value with
  | GV_int64 z => ret z
  | _ =>
      emit (Critical "g_value_get_int64: assertion 'G_VALUE_HOLDS_INT64 (value)' failed") ;;;
      ret 0
  end.

Definition g_value_dup_object {RmfRoot} (value : GValue RmfRoot)
  : M RmfRoot (option RmfRoot) :=
  match value with
  | GV_object o => ret o
  | _ =>
      emit (Critical "g_value_dup_object: assertion 'G_VALUE_HOLDS_OBJECT (value)' failed") ;;;
      ret None
  end.

(** [rmf_loader_set_property (object, property_id, value, pspec)]: the
    [switch] on the id, [PROP_VERSION] falling to [default] with every id
    that is not a property. *)
Definition rmf_loader_set_property {RmfRoot} (property_id : Z)
    (value : GValue RmfRoot) : M RmfRoot handled :=
  if property_id =? PROP_SOURCE then
    s <- g_value_dup_string value ;;
    update (with_source s) ;;; ret Handled
  else if property_id =? PROP_DATA then
    b <- g_value_dup_boxed value ;;
    update (with_data b) ;;; ret Handled
  else if property_id =? PROP_OFFSET then
    z <- g_value_get_int64 value ;;
    update (with_offset z) ;;; ret Handled
  else if property_id =? PROP_ROOT then
    o <- g_value_dup_object value ;;
    update (with_root o) ;;; ret Handled
  else ret InvalidPropertyId.

(** [rmf_loader_get_property (object, property_id, value, pspec)]: the
    value that the handler stores in the [GValue] that GObject has prepared
    with the type of the property, [None] when it ends in
    [G_OBJECT_WARN_INVALID_PROPERTY_ID] and stores nothing. [PROP_SOURCE]
    and [PROP_DATA] fall to [default]. *)
Definition rmf_loader_get_property {RmfRoot} (property_id : Z)
    (self : RmfLoader RmfRoot) : option (GValue RmfRoot) :=
  if property_id =? PROP_OFFSET then Some (GV_int64 (offset self))
  else if property_id =? PROP_VERSION then Some (GV_float (version self))
  else if property_id =? PROP_ROOT then Some (GV_object (root self))
  else None.

(** [rmf_loader_get_root]: [g_object_get] of the root property into a
    pointer that starts null. *)
Definition rmf_loader_get_root {RmfRoot} (self : RmfLoader RmfRoot)
  : option RmfRoot :=
  match rmf_loader_get_property PROP_ROOT self with
  | Some (GV_object o) => o
  | _ => None
  end.

(** [rmf_loader_get_version]: [g_object_get] of the version property into
    a float that starts at [0.f]. *)
Definition rmf_loader_get_version {RmfRoot} (self : RmfLoader RmfRoot)
  : rmf_float :=
  match rmf_loader_get_property PROP_VERSION self with
  | Some (GV_float f) => f
  | _ => S754_zero false
  end.

(** ** More on the trace *)

(** A line of the trace moved [levels] scopes deeper. *)
Definition deepen (levels : nat) (line : nat * string) : nat * string :=
  (fst line + levels, snd line)%nat.

(** ** More sample inputs *)

(** A loader four bytes into eight bytes of data. *)
Definition mid_loader : RmfLoader unit :=
  mkLoader (Some "a.rmf") (Some [x01; x02; x03; x04; x05; x06; x07; x08]) 4
    [] (S754_zero false) None.

(** A file of five bytes: a version, and a magic number cut short. *)
Definition short_file : GFile :=
  mkGFile (inr [x00; x00; x00; x40; x52]) (Some "d.rmf").

(** A loader that has been in use: some data, a cursor, a version. *)
Definition used_loader : RmfLoader unit :=
  mkLoader (Some "old.rmf") (Some [x09; x09]) 2 []
    (S754_finite false 13421773 (-23)) None.

(** A balanced body for a scope: one leaf, then a scope around a leaf. *)
Definition sample_body : list trace_call :=
  [LogOneline "b" None []; LogBegin "c" []; LogOneline "d" (Some "hi") [];
   LogEnd].

(** Calls that close more than they open. *)
Definition unbalanced_calls : list trace_call :=
  [LogEnd; LogBegin "a" []; LogEnd; LogEnd].

(** * Properties *)

(** ** Machine integers *)

Lemma to_gsize_small (z : Z) : 0 <= z <= G_MAXSIZE -> to_gsize z = z.
Proof.
  unfold to_gsize, G_MAXSIZE. intros H. apply Z.mod_small. lia.
Qed.

Lemma to_goffset_small (z : Z) :
  G_MINOFFSET <= z <= G_MAXOFFSET -> to_goffset z = z.
Proof.
  unfold to_goffset, G_MINOFFSET, G_MAXOFFSET. intros H.
  rewrite Z.mod_small; lia.
Qed.

Lemma to_guint_small (z : Z) : 0 <= z <= G_MAXUINT -> to_guint z = z.
Proof.
  unfold to_guint, G_MAXUINT. intros H. apply Z.mod_small. lia.
Qed.

(** ** The byte buffer *)

Lemma g_bytes_get_region_inside (bytes : list byte) (off n : Z) :
  0 <= off -> 0 <= n ->
  off + n <= Z.of_nat (List.length bytes) ->
  Z.of_nat (List.length bytes) <= G_MAXSIZE ->
  g_bytes_get_region bytes 1 off n =
    Some (firstn (Z.to_nat n) (skipn (Z.to_nat off) bytes)).
Proof.
  intros Hoff Hn Hend Hsize. unfold g_bytes_get_region.
  change (1 <=? 0) with false. cbv iota. rewrite Z.mul_1_l. cbv zeta.
  destruct (Z.ltb_spec G_MAXSIZE n); [lia|].
  destruct (Z.ltb_spec G_MAXSIZE (off + n)); [lia|].
  destruct (Z.ltb_spec (Z.of_nat (List.length bytes)) (off + n)); [lia|].
  reflexivity.
Qed.

Lemma g_bytes_get_region_outside (bytes : list byte) (off n : Z) :
  Z.of_nat (List.length bytes) < off + n ->
  g_bytes_get_region bytes 1 off n = None.
Proof.
  intros Hend. unfold g_bytes_get_region.
  change (1 <=? 0) with false. cbv iota. rewrite Z.mul_1_l. cbv zeta.
  destruct (G_MAXSIZE <? n); [reflexivity|].
  destruct (G_MAXSIZE <? off + n); [reflexivity|].
  destruct (Z.ltb_spec (Z.of_nat (List.length bytes)) (off + n)); [reflexivity|lia].
Qed.

Lemma region_length (bytes : list byte) (off n : nat) :
  (off + n <= List.length bytes)%nat ->
  List.length (firstn n (skipn off bytes)) = n.
Proof.
  intros H. rewrite firstn_length_le; [reflexivity|].
  rewrite length_skipn. lia.
Qed.

Lemma region_nth (bytes : list byte) (off n i : nat) :
  (i < n)%nat ->
  nth_error (firstn n (skipn off bytes)) i = nth_error bytes (off + i).
Proof.
  intros Hi. rewrite nth_error_firstn.
  destruct (Nat.ltb_spec i n); [|lia].
  apply nth_error_skipn.
Qed.

(** ** Indentation *)

Lemma g_strjoin_spaces (k : nat) (str : string) :
  g_strjoin (List.repeat " " k ++ [str]) = spaces k ++ str.
Proof.
  unfold g_strjoin. induction k as [|k IH].
  - reflexivity.
  - change (List.repeat " " (S k) ++ [str])%list
      with (" " :: (List.repeat " " k ++ [str]))%list.
    destruct (List.repeat " " k ++ [str])%list as [|x l] eqn:E.
    + destruct k; discriminate E.
    + cbn [String.concat]. cbn [String.concat] in IH. rewrite IH. reflexivity.
Qed.

Lemma indent_spaces (n : Z) (str : string) :
  0 <= n < 2 ^ 31 ->
  indent n str = spaces (Z.to_nat n * Z.to_nat INDENT_WIDTH) ++ str.
Proof.
  intros Hn. unfold indent.
  rewrite to_guint_small by (unfold INDENT_WIDTH, G_MAXUINT; lia).
  rewrite g_strjoin_spaces. f_equal. f_equal.
  unfold INDENT_WIDTH. lia.
Qed.

Lemma leading_spaces_indented (k : nat) (text : string) :
  leading_spaces (spaces k ++ "<" ++ text) = k.
Proof.
  induction k as [|k IH]; [reflexivity|].
  cbn in IH |- *. now rewrite IH.
Qed.

(** ** Comparing versions *)

Lemma digits2_pos_size (p : positive) : digits2_pos p = Pos.size p.
Proof. induction p as [p IH|p IH|]; cbn; now rewrite ?IH. Qed.

Lemma digits2_pos_log2 (p : positive) :
  Z.pos (digits2_pos p) = Z.log2 (Z.pos p) + 1.
Proof.
  destruct p as [p|p|]; cbn [digits2_pos Z.log2]; rewrite ?digits2_pos_size; lia.
Qed.

(** Every bit pattern decodes to a binary32 number in normal form, the form
    in which [SFcompare] orders numbers as IEEE-754 does. *)
Lemma float_of_bits_valid (w : Z) :
  valid_binary 24 128 (float_of_bits w) = true.
Proof.
  unfold float_of_bits.
  set (e := Z.land (Z.shiftr w 23) 255).
  set (m := Z.land w (2 ^ 23 - 1)).
  assert (He : 0 <= e < 256).
  { subst e. change 255 with (Z.ones 8). rewrite Z.land_ones by lia.
    apply Z.mod_pos_bound. lia. }
  assert (Hm : 0 <= m < 2 ^ 23).
  { subst m. change (2 ^ 23 - 1) with (Z.ones 23). rewrite Z.land_ones by lia.
    apply Z.mod_pos_bound. lia. }
  destruct (Z.eqb_spec e 0) as [He0|He0].
  - destruct (Z.eqb_spec m 0) as [Hm0|Hm0]; [reflexivity|].
    cbn [valid_binary]. unfold bounded, canonical_mantissa, fexp, emin.
    rewrite digits2_pos_log2, Z2Pos.id by lia.
    assert (Z.log2 m < 23) by (apply Z.log2_lt_pow2; lia).
    apply andb_true_intro. split; [apply Z.eqb_eq|apply Z.leb_le]; lia.
  - destruct (Z.eqb_spec e 255) as [He1|He1].
    + destruct (m =? 0); reflexivity.
    + cbn [valid_binary]. unfold bounded, canonical_mantissa, fexp, emin.
      rewrite digits2_pos_log2, Z2Pos.id by lia.
      assert (Z.log2 (m + 2 ^ 23) = 23) by (apply Z.log2_unique; lia).
      apply andb_true_intro. split; [apply Z.eqb_eq|apply Z.leb_le]; lia.
Qed.

(** The two bounds are the numbers that the compiler makes of [1.6f] and
    [2.2f], and 2.0 lies between them. *)
Lemma version_bounds_bits :
  float_of_bits 0x3FCCCCCD = RMF_MIN_SUPPORTED_VERSION
  /\ float_of_bits 0x400CCCCD = RMF_MAX_SUPPORTED_VERSION
  /\ version_unsupported (float_of_bits 0x40000000) = false
  /\ version_unsupported (float_of_bits 0x3F000000) = true.
Proof. repeat split. Qed.

(** [a <= b] rules out [b < a]. *)
Lemma SFleb_not_SFltb (a b : spec_float) :
  SFleb a b = true -> SFltb b a = false.
Proof.
  unfold SFleb, SFltb, SFcompare.
  destruct a as [s1|s1| |s1 m1 e1], b as [s2|s2| |s2 m2 e2];
    try destruct s1; try destruct s2; try reflexivity; try discriminate.
  all: change (Pos.compare_cont Eq m2 m1) with (Pos.compare m2 m1);
    change (Pos.compare_cont Eq m1 m2) with (Pos.compare m1 m2);
    rewrite (Z.compare_antisym e1 e2), (Pos.compare_antisym m1 m2);
    destruct (e1 ?= e2)%Z; cbn [CompOpp]; try reflexivity; try discriminate;
    destruct (m1 ?= m2)%positive; cbn [CompOpp]; try reflexivity; discriminate.
Qed.

Lemma version_in_range (v : rmf_float) :
  SFleb RMF_MIN_SUPPORTED_VERSION v = true ->
  SFleb v RMF_MAX_SUPPORTED_VERSION = true ->
  version_unsupported v = false.
Proof.
  intros Hmin Hmax. unfold version_unsupported.
  now rewrite (SFleb_not_SFltb _ _ Hmin), (SFleb_not_SFltb _ _ Hmax).
Qed.

Lemma version_out_of_range (v : rmf_float) :
  SFltb v RMF_MIN_SUPPORTED_VERSION = true
  \/ SFltb RMF_MAX_SUPPORTED_VERSION v = true ->
  version_unsupported v = true.
Proof.
  unfold version_unsupported. intros [H|H]; rewrite H;
    [reflexivity|apply orb_true_r].
Qed.

Section Properties.

Variable RmfRoot : Type.
Variable vprintf : string -> list va_item -> string.
Variable root_new : M RmfRoot (option RmfRoot).

(** ** The cursor *)

(** Past the end of the data the region pointer is null and [memcpy] reads
    through it, whatever the loader and the non-empty request. *)
Lemma rmf_loader_read_outside (self : RmfLoader RmfRoot) (bytes buf : list byte) (n : Z) :
  data self = Some bytes ->
  0 <= offset self <= G_MAXOFFSET -> 0 < n ->
  Z.of_nat (List.length bytes) < offset self + n ->
  rmf_loader_read n (Some buf) self = Faults NullRead.
Proof.
  intros Hdata Hoff Hn Hend.
  unfold rmf_loader_read, bind, get. rewrite Hdata.
  rewrite to_gsize_small by (unfold G_MAXOFFSET, G_MAXSIZE in *; lia).
  rewrite g_bytes_get_region_outside by assumption.
  unfold memcpy. destruct (Z.eqb_spec n 0); [lia|]. reflexivity.
Qed.

(** Within the data the region is copied and the offset advanced. *)
Lemma rmf_loader_read_inside
    (self : RmfLoader RmfRoot) (bytes buf : list byte) (n : Z) :
  data self = Some bytes ->
  0 <= offset self -> 0 <= n ->
  offset self + n <= Z.of_nat (List.length bytes) ->
  Z.of_nat (List.length bytes) <= G_MAXOFFSET ->
  n <= Z.of_nat (List.length buf) ->
  rmf_loader_read n (Some buf) self =
    Returns (Some (firstn (Z.to_nat n) (skipn (Z.to_nat (offset self)) bytes)
                   ++ skipn (Z.to_nat n) buf)%list)
            (with_offset (offset self + n) self) [].
Proof.
  intros Hdata Hoff Hn Hend Hsize Hbuf.
  unfold rmf_loader_read, bind, get. rewrite Hdata.
  rewrite to_gsize_small by (unfold G_MAXOFFSET, G_MAXSIZE in *; lia).
  rewrite g_bytes_get_region_inside
    by (unfold G_MAXOFFSET, G_MAXSIZE in *; lia).
  rewrite to_goffset_small by (unfold G_MAXOFFSET, G_MINOFFSET in *; lia).
  unfold memcpy. destruct (Z.eqb_spec n 0) as [Hz|Hnz].
  - subst n. reflexivity.
  - rewrite region_length by lia.
    rewrite Z2Nat.id by lia.
    destruct (Z.ltb_spec n n); [lia|].
    destruct (Z.ltb_spec (Z.of_nat (List.length buf)) n); [lia|].
    rewrite firstn_firstn, Nat.min_id. reflexivity.
Qed.

(** C2. A read of [n] bytes that lies within the data, [off + n <= L],
    returns, leaves in [dest] exactly the bytes [data[off .. off+n)] (what
    lies beyond the first [n] bytes of [dest] is not touched) and sets the
    offset to [off + n]. Offsets and sizes are those of the C types:
    [0 <= off], [0 <= n], a buffer no longer than [G_MAXOFFSET], and a
    destination of [n] bytes at least. *)
Theorem rmf_loader_read_in_bounds
    (self : RmfLoader RmfRoot) (bytes buf : list byte) (n : Z) :
  data self = Some bytes ->
  0 <= offset self -> 0 <= n ->
  offset self + n <= Z.of_nat (List.length bytes) ->
  Z.of_nat (List.length bytes) <= G_MAXOFFSET ->
  n <= Z.of_nat (List.length buf) ->
  exists copied,
    rmf_loader_read n (Some buf) self =
      Returns (Some (copied ++ skipn (Z.to_nat n) buf)%list)
              (with_offset (offset self + n) self) []
    /\ List.length copied = Z.to_nat n
    /\ forall i, (i < Z.to_nat n)%nat ->
         nth_error copied i = nth_error bytes (Z.to_nat (offset self) + i).
Proof.
  intros Hdata Hoff Hn Hend Hsize Hbuf.
  exists (firstn (Z.to_nat n) (skipn (Z.to_nat (offset self)) bytes)).
  split; [|split].
  - now apply rmf_loader_read_inside.
  - apply region_length. lia.
  - intros i Hi. now apply region_nth.
Qed.

(** C1, at a failing input: three bytes are asked of a loader that holds
    two. [g_bytes_get_region] answers NULL, [rmf_loader_read] hands that
    pointer to [memcpy], and the call does not come back to its caller: no
    condition is reported and nothing is returned. *)
Theorem rmf_loader_read_past_end :
  g_bytes_get_region [x01; x02] 1 0 3 = None
  /\ rmf_loader_read 3 (Some [x00; x00; x00]) two_byte_loader = Faults NullRead
  /\ forall r self' log,
       rmf_loader_read 3 (Some [x00; x00; x00]) two_byte_loader
         <> Returns r self' log.
Proof.
  split; [reflexivity|]. split; [reflexivity|].
  intros r self' log. discriminate.
Qed.

(** ** The trace *)

Lemma with_tag_stack_same (self : RmfLoader RmfRoot) (s : list string) :
  tag_stack self = s -> with_tag_stack s self = self.
Proof.
  destruct self; cbn; intros <-; reflexivity.
Qed.

Lemma with_tag_stack_twice (self : RmfLoader RmfRoot) (s t : list string) :
  with_tag_stack s (with_tag_stack t self) = with_tag_stack s self.
Proof. reflexivity. Qed.

Lemma trace_line_with_tag_stack (self : RmfLoader RmfRoot) (s : list string) :
  trace_line (with_tag_stack s self) = trace_line self.
Proof. reflexivity. Qed.

(** What [rmf_loader_log_begin] does below the capacity of the stack. *)
Lemma log_begin_returns (self : RmfLoader RmfRoot) (tag : string) (ap : list attr) :
  Z.of_nat (List.length (tag_stack self)) < 2 ^ 31 ->
  rmf_loader_log_begin vprintf tag ap self =
    Returns tt (with_tag_stack (tag_stack self ++ [tag]) self)
      [trace_line self (List.length (tag_stack self),
                        "<" ++ make_tag vprintf tag ap ++ ">")].
Proof.
  intros Hlen.
  unfold rmf_loader_log_begin, g_ptr_array_add, bind, get, update, g_info.
  destruct (Z.leb_spec G_MAXUINT (Z.of_nat (List.length (tag_stack self))))
    as [Hfull|_]; [unfold G_MAXUINT in Hfull; lia|].
  unfold tag_stack_len. cbn [tag_stack with_tag_stack app].
  rewrite length_app, Nat2Z.inj_add. cbn [List.length Z.of_nat Pos.of_succ_nat].
  rewrite (to_guint_small (_ + 1)) by (unfold G_MAXUINT; lia).
  replace (Z.of_nat (List.length (tag_stack self)) + 1 - 1)
    with (Z.of_nat (List.length (tag_stack self))) by lia.
  rewrite to_guint_small by (unfold G_MAXUINT; lia).
  rewrite indent_spaces by lia. rewrite Nat2Z.id. reflexivity.
Qed.

(** What [rmf_loader_log_oneline] does. *)
Lemma log_oneline_returns (self : RmfLoader RmfRoot) (tag : string)
    (content : option string) (ap : list attr) :
  Z.of_nat (List.length (tag_stack self)) < 2 ^ 31 ->
  rmf_loader_log_oneline vprintf tag content ap self =
    Returns tt self
      [trace_line self (List.length (tag_stack self),
                        leaf_text (make_tag vprintf tag ap) tag content)].
Proof.
  intros Hlen.
  unfold rmf_loader_log_oneline, bind, get, g_info, tag_stack_len.
  rewrite to_guint_small by (unfold G_MAXUINT; lia).
  rewrite indent_spaces by lia. rewrite Nat2Z.id.
  destruct content; reflexivity.
Qed.

(** What [rmf_loader_log_end] does on a stack that holds a tag. *)
Lemma log_end_returns (self : RmfLoader RmfRoot) (outer : list string) (tag : string) :
  tag_stack self = (outer ++ [tag])%list ->
  Z.of_nat (List.length outer) < 2 ^ 31 ->
  rmf_loader_log_end self =
    Returns tt (with_tag_stack outer self)
      [trace_line self (List.length outer, "</" ++ tag ++ ">")].
Proof.
  intros Hstack Hlen.
  unfold rmf_loader_log_end, g_ptr_array_remove_index, bind, get, update,
    ret, g_info, tag_stack_len.
  rewrite Hstack, length_app, Nat2Z.inj_add.
  cbn [List.length Z.of_nat Pos.of_succ_nat].
  rewrite (to_guint_small (_ + 1)) by (unfold G_MAXUINT; lia).
  replace (Z.of_nat (List.length outer) + 1 - 1)
    with (Z.of_nat (List.length outer)) by lia.
  rewrite to_guint_small by (unfold G_MAXUINT; lia).
  destruct (Z.ltb_spec (Z.of_nat (List.length outer))
                       (Z.of_nat (List.length outer) + 1)); [|lia].
  rewrite Nat2Z.id.
  rewrite nth_error_app2, Nat.sub_diag by lia.
  rewrite firstn_app, Nat.sub_diag, firstn_all, firstn_O, app_nil_r.
  rewrite skipn_app, skipn_all2 by lia.
  replace (S (List.length outer) - List.length outer)%nat with 1%nat by lia.
  cbn [tag_stack with_tag_stack skipn app nth_error fmt_s].
  rewrite app_nil_r.
  rewrite to_guint_small by (unfold G_MAXUINT; lia).
  rewrite indent_spaces by lia. rewrite Nat2Z.id. reflexivity.
Qed.

(** What [rmf_loader_log_end] does on an empty stack: the index
    [len - 1] wraps around to [G_MAXUINT], GLib refuses it and hands back
    no tag, nothing is popped, and a closing line is still printed. *)
Lemma log_end_empty (self : RmfLoader RmfRoot) :
  tag_stack self = [] ->
  rmf_loader_log_end self =
    Returns tt self
      [Critical "ptr_array_remove_index: assertion 'index_ < rarray->len' failed";
       Info (log_message self "</(null)>")].
Proof.
  intros Hstack.
  unfold rmf_loader_log_end, g_ptr_array_remove_index, bind, get, emit,
    ret, g_info, tag_stack_len.
  rewrite Hstack.
  assert (Hwrap : to_guint (to_guint (Z.of_nat (@List.length string [])) - 1)
                  = G_MAXUINT) by reflexivity.
  rewrite Hwrap. change (G_MAXUINT <? Z.of_nat (@List.length string [])) with false.
  cbv iota beta. rewrite Hstack. reflexivity.
Qed.

Lemma max_depth_ge (calls : list trace_call) (d : nat) :
  (d <= max_depth d calls)%nat.
Proof.
  revert d. induction calls as [|c rest IH]; intros d; [apply Nat.le_refl|].
  destruct c; cbn [max_depth]; [lia | apply IH | lia].
Qed.

(** A run that never closes more than is open ends with as many open tags as
    its depth says. *)
Lemma spec_open_tags_depth (calls : list trace_call) :
  forall (open_tags : list string) (k : nat),
    depth_after (List.length open_tags) calls = Some k ->
    exists open', spec_open_tags open_tags calls = Some open'
                  /\ List.length open' = k.
Proof.
  induction calls as [|c rest IH]; intros open_tags k Hdepth.
  - injection Hdepth as <-. now exists open_tags.
  - destruct c as [tag ap|tag content ap|]; cbn in Hdepth |- *.
    + apply (IH (tag :: open_tags)). exact Hdepth.
    + now apply IH.
    + destruct open_tags as [|t outer]; [discriminate|].
      now apply IH.
Qed.

(** The code refines the specification's trace: with the tag stack holding
    the open tags, innermost last, a run prints the specification's lines
    and ends on the specification's stack. *)
Lemma trace_run_refines (calls : list trace_call) :
  forall (open_tags open' : list string) (self : RmfLoader RmfRoot),
    tag_stack self = rev open_tags ->
    Z.of_nat (max_depth (List.length open_tags) calls) < 2 ^ 31 ->
    spec_open_tags open_tags calls = Some open' ->
    trace_run vprintf calls self =
      Returns tt (with_tag_stack (rev open') self)
        (List.map (trace_line self) (spec_lines vprintf open_tags calls)).
Proof.
  induction calls as [|c rest IH]; intros open_tags open' self Hstack Hdepth Hopen.
  - injection Hopen as <-. cbn. unfold ret.
    now rewrite with_tag_stack_same.
  - assert (Hlen : List.length (tag_stack self) = List.length open_tags)
      by (rewrite Hstack; apply length_rev).
    destruct c as [tag ap|tag content ap|];
      cbn [trace_run trace_step spec_lines spec_open_tags max_depth List.map]
        in Hdepth, Hopen |- *; unfold bind.
    + rewrite log_begin_returns by lia.
      rewrite (IH (tag :: open_tags) open');
        [ | cbn [tag_stack with_tag_stack rev]; now rewrite Hstack
          | cbn [List.length]; lia | exact Hopen ].
      rewrite with_tag_stack_twice, trace_line_with_tag_stack, Hlen.
      reflexivity.
    + rewrite log_oneline_returns by (pose proof (max_depth_ge rest (List.length open_tags)); lia).
      rewrite (IH open_tags open'); [ | assumption | lia | exact Hopen ].
      rewrite Hlen. reflexivity.
    + destruct open_tags as [|tag outer]; [discriminate|].
      cbn [rev] in Hstack. cbn [List.length Nat.pred] in Hdepth.
      rewrite (log_end_returns self (rev outer) tag Hstack)
        by (rewrite length_rev; pose proof (max_depth_ge rest (List.length outer)); lia).
      rewrite (IH outer open');
        [ | reflexivity | lia | exact Hopen ].
      rewrite with_tag_stack_twice, trace_line_with_tag_stack, length_rev.
      reflexivity.
Qed.

(** Every line of the specification's trace opens with its element. *)
Lemma spec_lines_indentation (calls : list trace_call) :
  forall open_tags,
    Forall (fun line =>
              leading_spaces (spaces (fst line * Z.to_nat INDENT_WIDTH) ++ snd line)
              = (fst line * Z.to_nat INDENT_WIDTH)%nat)
           (spec_lines vprintf open_tags calls).
Proof.
  induction calls as [|c rest IH]; intros open_tags; [constructor|].
  destruct c as [tag ap|tag content ap|]; cbn [spec_lines].
  - constructor; [apply leading_spaces_indented | apply IH].
  - constructor; [|apply IH].
    destruct content; apply leading_spaces_indented.
  - destruct open_tags as [|tag outer]; constructor;
      [apply (leading_spaces_indented _ ("/" ++ tag ++ ">")) | apply IH].
Qed.

(** C6. A balanced sequence of trace calls run on an empty tag stack comes
    back to the loader it started from, so to an empty stack, and prints
    the lines of the specification: each at the depth recorded for it, the
    depth before the push for an open line and after the pop for a close
    line, indented by that depth times [INDENT_WIDTH] spaces. The nesting
    stays below 2^31, where the [unsigned int] product of [indent] is
    exact. *)
Theorem balanced_trace_indentation
    (calls : list trace_call) (self : RmfLoader RmfRoot) :
  tag_stack self = [] ->
  balanced calls = true ->
  Z.of_nat (max_depth 0 calls) < 2 ^ 31 ->
  trace_run vprintf calls self =
    Returns tt self (List.map (trace_line self) (spec_lines vprintf [] calls))
  /\ Forall (fun line =>
               leading_spaces (spaces (fst line * Z.to_nat INDENT_WIDTH) ++ snd line)
               = (fst line * Z.to_nat INDENT_WIDTH)%nat)
            (spec_lines vprintf [] calls).
Proof.
  intros Hstack Hbal Hdepth. split; [|apply spec_lines_indentation].
  unfold balanced in Hbal.
  destruct (depth_after 0 calls) as [[|k]|] eqn:Hd; try discriminate.
  destruct (spec_open_tags_depth calls [] 0 Hd) as (open' & Hopen & Hnil).
  apply length_zero_iff_nil in Hnil. subst open'.
  rewrite (trace_run_refines calls [] [] self Hstack Hdepth Hopen).
  cbn [rev]. now rewrite with_tag_stack_same.
Qed.

(** C8. [rmf_loader_log_oneline] returns the loader as it found it, tag
    stack included, after printing one line: the element [<tag .../>] when
    there is no content, [<tag ...>content</tag>] otherwise, where [tag ...]
    is the tag and its attributes (the tag alone when there are none),
    behind as many indentation units as tags are open. The depth stays
    below 2^31, where the [unsigned int] product of [indent] is exact. *)
Theorem log_oneline_one_line
    (self : RmfLoader RmfRoot) (tag : string) (content : option string)
    (ap : list attr) :
  Z.of_nat (List.length (tag_stack self)) < 2 ^ 31 ->
  let depth := List.length (tag_stack self) in
  let element :=
    match content with
    | None => "<" ++ make_tag vprintf tag ap ++ "/>"
    | Some c => "<" ++ make_tag vprintf tag ap ++ ">" ++ c ++ "</" ++ tag ++ ">"
    end in
  let indented := spaces (depth * Z.to_nat INDENT_WIDTH) ++ element in
  rmf_loader_log_oneline vprintf tag content ap self =
    Returns tt self [Info (log_message self indented)]
  /\ leading_spaces indented = (depth * Z.to_nat INDENT_WIDTH)%nat
  /\ make_tag vprintf tag [] = tag.
Proof.
  intros Hlen depth element indented. split; [|split].
  - rewrite log_oneline_returns by assumption. reflexivity.
  - subst indented element. destruct content; apply leading_spaces_indented.
  - reflexivity.
Qed.

Lemma same_cursor_with_tag_stack (self : RmfLoader RmfRoot) (s : list string) :
  same_cursor self (with_tag_stack s self).
Proof. repeat split. Qed.

(** [rmf_loader_log_end] returns on every loader, and touches the tag stack
    only. *)
Lemma log_end_total (self : RmfLoader RmfRoot) :
  exists self' log,
    rmf_loader_log_end self = Returns tt self' log /\ same_cursor self self'.
Proof.
  unfold rmf_loader_log_end, g_ptr_array_remove_index, bind, get, update,
    emit, ret, g_info.
  destruct (to_guint (tag_stack_len self - 1) <? Z.of_nat (List.length (tag_stack self)));
    cbn; eexists; eexists; (split; [reflexivity|]).
  - apply same_cursor_with_tag_stack.
  - repeat split.
Qed.

(** C10. The three trace functions leave [source], [data], [offset],
    [version] and [root] as they are. [rmf_loader_log_begin] returns with the
    tag pushed, unless the stack already holds [G_MAXUINT] tags and GLib
    aborts; [rmf_loader_log_oneline] returns the very loader it was given;
    [rmf_loader_log_end] returns with at most the tag stack changed. *)
Theorem log_functions_frame (self : RmfLoader RmfRoot) :
  (forall tag ap,
      match rmf_loader_log_begin vprintf tag ap self with
      | Returns _ self' _ =>
          same_cursor self self'
          /\ tag_stack self' = (tag_stack self ++ [tag])%list
      | Faults _ => G_MAXUINT <= Z.of_nat (List.length (tag_stack self))
      end)
  /\ (forall tag content ap,
        exists log,
          rmf_loader_log_oneline vprintf tag content ap self = Returns tt self log)
  /\ (exists self' log,
        rmf_loader_log_end self = Returns tt self' log /\ same_cursor self self').
Proof.
  split; [|split].
  - intros tag ap.
    unfold rmf_loader_log_begin, g_ptr_array_add, bind, get, update, fail, g_info.
    destruct (Z.leb_spec G_MAXUINT (Z.of_nat (List.length (tag_stack self))))
      as [Hfull|Hroom]; cbn.
    + exact Hfull.
    + split; [apply same_cursor_with_tag_stack|reflexivity].
  - intros tag content ap. eexists.
    unfold rmf_loader_log_oneline, bind, get, g_info. reflexivity.
  - apply log_end_total.
Qed.

(** ** Loading *)

Lemma bind_returns {A B} (m : M RmfRoot A) (k : A -> M RmfRoot B)
    (self self1 : RmfLoader RmfRoot) (a : A) (log1 : list event) :
  m self = Returns a self1 log1 ->
  bind m k self =
    match k a self1 with
    | Faults why => Faults why
    | Returns b self2 log2 => Returns b self2 (log1 ++ log2)%list
    end.
Proof. intros H. unfold bind. now rewrite H. Qed.

(** A float is decoded from four bytes that the data holds. *)
Lemma rmf_read_float_returns (self : RmfLoader RmfRoot) (bytes : list byte) :
  data self = Some bytes ->
  offset self = 0 ->
  4 <= Z.of_nat (List.length bytes) <= G_MAXOFFSET ->
  rmf_read_float self = Returns (header_version bytes) (with_offset 4 self) [].
Proof.
  intros Hdata Hoff Hlen. unfold rmf_read_float.
  rewrite (bind_returns _ _ self (with_offset 4 self)
             (Some (firstn 4 bytes)) []).
  - reflexivity.
  - rewrite (rmf_loader_read_inside self bytes [x00; x00; x00; x00] 4 Hdata);
      rewrite ?Hoff; cbn [List.length Z.of_nat Pos.of_succ_nat Pos.succ]; try lia.
    change (Z.to_nat 0) with 0%nat. change (Z.to_nat 4) with 4%nat.
    cbn [skipn]. now rewrite app_nil_r.
Qed.

Lemma bind_update {B} (f : RmfLoader RmfRoot -> RmfLoader RmfRoot)
    (k : unit -> M RmfRoot B) (self : RmfLoader RmfRoot) :
  bind (update f) k self = k tt (f self).
Proof. unfold bind, update. now destruct (k tt (f self)). Qed.

Lemma bind_get {A B} (field : RmfLoader RmfRoot -> A)
    (k : A -> M RmfRoot B) (self : RmfLoader RmfRoot) :
  bind (get field) k self = k (field self) self.
Proof. unfold bind, get. now destruct (k (field self) self). Qed.

Lemma bind_ret {A B} (a : A) (k : A -> M RmfRoot B) (self : RmfLoader RmfRoot) :
  bind (ret a) k self = k a self.
Proof. unfold bind, ret. now destruct (k a self). Qed.

(** The result of [rmf_loader_load_from_file] on a file that loads and holds
    a header, with a root builder that returns. *)
Lemma load_from_file_returns
    (file : GFile) (error : option (option GError)) (bytes : list byte)
    (self self2 : RmfLoader RmfRoot) (r : option RmfRoot) (log_root : list event) :
  file_contents file = inr bytes ->
  (forall e, error <> Some (Some e)) ->
  7 <= Z.of_nat (List.length bytes) <= G_MAXOFFSET ->
  Z.of_nat (List.length (tag_stack self)) < 2 ^ 31 ->
  root_new (header_done file bytes self) = Returns r self2 log_root ->
  exists self3 log_end,
    rmf_loader_log_end (with_root r self2) = Returns tt self3 log_end
    /\ root self3 = r
    /\ rmf_loader_load_from_file vprintf root_new file error self =
         Returns error self3
           ((if version_unsupported (header_version bytes)
             then [Printerr (unsupported_version_message vprintf (header_version bytes))]
             else [])
            ++ (if memcmp_differs (header_magic bytes) (bytes_of_string "RMF") 3
                then [Printerr (invalid_magic_message (header_magic bytes))]
                else [])
            ++ document_open_line vprintf file bytes self
            :: log_root ++ log_end)%list.
Proof.
  intros Hfile Herr Hlen Hstack Hroot.
  destruct (log_end_total (with_root r self2)) as (self3 & log_end & Hend & Hsame).
  exists self3, log_end. split; [exact Hend|]. split.
  { destruct Hsame as (_ & _ & _ & _ & Hr). exact Hr. }
  unfold rmf_loader_load_from_file.
  assert (Hload : g_file_load_bytes file error = (Some bytes, error)).
  { unfold g_file_load_bytes. now rewrite Hfile. }
  assert (Hgo : match error with Some (Some _) => False | _ => True end).
  { destruct error as [[e|]|]; [now elim (Herr e)|exact I|exact I]. }
  set (self0 := with_offset 0
                  (with_data (Some bytes)
                     (with_source (file_display_basename file) self))).
  assert (Hfloat : rmf_read_float self0
                   = Returns (header_version bytes) (with_offset 4 self0) []).
  { apply rmf_read_float_returns; [reflexivity|reflexivity|lia]. }
  assert (Hmagic : rmf_loader_read 3 (Some [x00; x00; x00])
                     (with_version (header_version bytes) (with_offset 4 self0))
                   = Returns (Some (header_magic bytes))
                       (with_offset 7 (with_version (header_version bytes) self0)) []).
  { rewrite (rmf_loader_read_inside
               (with_version (header_version bytes) (with_offset 4 self0))
               bytes [x00; x00; x00] 3);
      cbn [offset with_version with_offset List.length Z.of_nat Pos.of_succ_nat Pos.succ];
      try lia; try reflexivity.
    change (Z.to_nat 3) with 3%nat. change (Z.to_nat 4) with 4%nat.
    cbn [skipn]. rewrite app_nil_r. reflexivity. }
  assert (Hbegin :
    rmf_loader_log_begin vprintf "rmf"
      [mkAttr "version" "%g" [va_double (header_version bytes)]]
      (with_offset 7 (with_version (header_version bytes) self0))
    = Returns tt (header_done file bytes self)
        [document_open_line vprintf file bytes self]).
  { rewrite log_begin_returns by exact Hstack. reflexivity. }
  destruct error as [[e|]|]; [contradiction| |];
    rewrite Hload; cbv iota beta;
    rewrite !bind_update; unfold rmf_loader_set_offset; rewrite bind_update;
    change (with_offset (to_goffset 0) _) with self0;
    rewrite (bind_returns _ _ _ _ _ _ Hfloat);
    rewrite bind_update, bind_get;
    cbn [version with_version];
    (destruct (version_unsupported (header_version bytes));
     [ unfold bind at 1; unfold emit at 1 | rewrite bind_ret ];
     rewrite (bind_returns _ _ _ _ _ _ Hmagic);
     cbn [contents];
     (destruct (memcmp_differs (header_magic bytes) (bytes_of_string "RMF") 3);
      [ unfold bind at 1; unfold emit at 1 | rewrite bind_ret ];
      rewrite bind_get; cbn [version with_version with_offset];
      rewrite (bind_returns _ _ _ _ _ _ Hbegin);
      rewrite (bind_returns _ _ _ _ _ _ Hroot);
      rewrite bind_update;
      rewrite (bind_returns _ _ _ _ _ _ Hend);
      unfold ret; cbn [app]; rewrite ?app_nil_r; reflexivity)).
Qed.

(** C3. On a file that loads and holds the seven bytes of a header, with a
    root builder that returns: a version below [RMF_MIN_SUPPORTED_VERSION] or
    above [RMF_MAX_SUPPORTED_VERSION] has its message printed first, and the
    load goes on as for any other version, to the magic number, the document
    scope and the root, which is stored; a version from
    [RMF_MIN_SUPPORTED_VERSION] to [RMF_MAX_SUPPORTED_VERSION], both
    included, has no message. *)
Theorem load_from_file_version_check
    (file : GFile) (error : option (option GError)) (bytes : list byte)
    (self self2 : RmfLoader RmfRoot) (r : option RmfRoot) (log_root : list event) :
  file_contents file = inr bytes ->
  (forall e, error <> Some (Some e)) ->
  7 <= Z.of_nat (List.length bytes) <= G_MAXOFFSET ->
  Z.of_nat (List.length (tag_stack self)) < 2 ^ 31 ->
  root_new (header_done file bytes self) = Returns r self2 log_root ->
  let v := header_version bytes in
  let log_magic :=
    if memcmp_differs (header_magic bytes) (bytes_of_string "RMF") 3
    then [Printerr (invalid_magic_message (header_magic bytes))] else [] in
  exists self3 log_end,
    let rest :=
      (log_magic ++ document_open_line vprintf file bytes self
                 :: log_root ++ log_end)%list in
    root self3 = r
    /\ (SFltb v RMF_MIN_SUPPORTED_VERSION = true
        \/ SFltb RMF_MAX_SUPPORTED_VERSION v = true ->
        rmf_loader_load_from_file vprintf root_new file error self =
          Returns error self3
            (Printerr (unsupported_version_message vprintf v) :: rest))
    /\ (SFleb RMF_MIN_SUPPORTED_VERSION v = true
        /\ SFleb v RMF_MAX_SUPPORTED_VERSION = true ->
        rmf_loader_load_from_file vprintf root_new file error self =
          Returns error self3 rest)
    /\ version_unsupported RMF_MIN_SUPPORTED_VERSION = false
    /\ version_unsupported RMF_MAX_SUPPORTED_VERSION = false.
Proof.
  intros Hfile Herr Hlen Hstack Hroot v log_magic. subst v log_magic.
  destruct (load_from_file_returns file error bytes self self2 r log_root
              Hfile Herr Hlen Hstack Hroot)
    as (self3 & log_end & _ & Hr & Hrun).
  exists self3, log_end. cbv zeta.
  repeat split; try exact Hr.
  - intros Hout. rewrite Hrun.
    now rewrite (version_out_of_range _ Hout).
  - intros [Hmin Hmax]. rewrite Hrun.
    now rewrite (version_in_range _ Hmin Hmax).
Qed.

(** C4. On a file that loads and holds the seven bytes of a header, with a
    root builder that returns: the magic number is the three bytes that
    follow the four of the version, the cursor being at 7 when the root
    builder is called; when they are not [RMF] the message is printed, and
    the load goes on all the same: the document scope is opened, the root is
    built and stored. *)
Theorem load_from_file_magic_check
    (file : GFile) (error : option (option GError)) (bytes : list byte)
    (self self2 : RmfLoader RmfRoot) (r : option RmfRoot) (log_root : list event) :
  file_contents file = inr bytes ->
  (forall e, error <> Some (Some e)) ->
  7 <= Z.of_nat (List.length bytes) <= G_MAXOFFSET ->
  Z.of_nat (List.length (tag_stack self)) < 2 ^ 31 ->
  root_new (header_done file bytes self) = Returns r self2 log_root ->
  let magic := firstn 3 (skipn 4 bytes) in
  let log_version :=
    if version_unsupported (header_version bytes)
    then [Printerr (unsupported_version_message vprintf (header_version bytes))]
    else [] in
  exists self3 log_end,
    let rest :=
      (document_open_line vprintf file bytes self :: log_root ++ log_end)%list in
    root self3 = r
    /\ offset (header_done file bytes self) = 4 + 3
    /\ List.length magic = 3%nat
    /\ (magic <> bytes_of_string "RMF" ->
        rmf_loader_load_from_file vprintf root_new file error self =
          Returns error self3
            (log_version ++ Printerr (invalid_magic_message magic) :: rest))
    /\ (magic = bytes_of_string "RMF" ->
        rmf_loader_load_from_file vprintf root_new file error self =
          Returns error self3 (log_version ++ rest)).
Proof.
  intros Hfile Herr Hlen Hstack Hroot magic log_version.
  destruct (load_from_file_returns file error bytes self self2 r log_root
              Hfile Herr Hlen Hstack Hroot)
    as (self3 & log_end & _ & Hr & Hrun).
  exists self3, log_end. cbv zeta.
  assert (Hmagic : List.length magic = 3%nat).
  { subst magic. apply region_length. lia. }
  assert (Hcmp : memcmp_differs (header_magic bytes) (bytes_of_string "RMF") 3
                 = if list_eq_dec Byte.byte_eq_dec magic (bytes_of_string "RMF")
                   then false else true).
  { unfold memcmp_differs, header_magic. fold magic.
    rewrite (firstn_all2 (n := 3) magic) by lia.
    change (firstn 3 (bytes_of_string "RMF")) with (bytes_of_string "RMF").
    now destruct (list_eq_dec Byte.byte_eq_dec magic (bytes_of_string "RMF")). }
  repeat split; try exact Hr; try exact Hmagic.
  - intros Hne. rewrite Hrun, Hcmp.
    destruct (list_eq_dec Byte.byte_eq_dec magic (bytes_of_string "RMF"));
      [contradiction|reflexivity].
  - intros Heq. rewrite Hrun, Hcmp.
    destruct (list_eq_dec Byte.byte_eq_dec magic (bytes_of_string "RMF"));
      [reflexivity|contradiction].
Qed.

(** C9. When the file cannot be loaded and the caller gave a place for the
    error, [rmf_loader_load_from_file] returns with the error in that place,
    the loader being the one it was given, every field and the tag stack
    included, and nothing printed. *)
Theorem load_from_file_load_error
    (file : GFile) (e : GError) (self : RmfLoader RmfRoot) :
  file_contents file = inl e ->
  rmf_loader_load_from_file vprintf root_new file (Some None) self =
    Returns (Some (Some e)) self [].
Proof.
  intros Hfile.
  unfold rmf_loader_load_from_file, g_file_load_bytes.
  rewrite Hfile. reflexivity.
Qed.

(** ** More on the cursor *)

Lemma to_gsize_negative (z : Z) :
  - 2 ^ 64 <= z < 0 -> to_gsize z = z + 2 ^ 64.
Proof.
  intros H. unfold to_gsize.
  rewrite <- (Z_mod_plus_full z 1 (2 ^ 64)).
  rewrite Z.mod_small; lia.
Qed.

(** A [goffset] that goes through [size_t] comes back as it was. *)
Lemma to_goffset_to_gsize (z : Z) :
  G_MINOFFSET <= z <= G_MAXOFFSET -> to_goffset (to_gsize z) = z.
Proof.
  unfold G_MINOFFSET, G_MAXOFFSET. intros H.
  destruct (Z.lt_ge_cases z 0) as [Hneg|Hpos].
  - rewrite to_gsize_negative by lia. unfold to_goffset.
    replace (z + 2 ^ 64 + 2 ^ 63) with (z + 2 ^ 63 + 1 * 2 ^ 64) by lia.
    rewrite Z_mod_plus_full, Z.mod_small; lia.
  - rewrite to_gsize_small by (unfold G_MAXSIZE; lia).
    apply to_goffset_small. unfold G_MINOFFSET, G_MAXOFFSET. lia.
Qed.

Lemma firstn_plus {A} (n m : nat) (l : list A) :
  firstn (n + m) l = (firstn n l ++ firstn m (skipn n l))%list.
Proof.
  revert l. induction n as [|n IH]; intros l; [reflexivity|].
  destruct l as [|x l]; cbn [Nat.add firstn skipn app].
  - now rewrite firstn_nil.
  - now rewrite IH.
Qed.

Lemma with_offset_same (self : RmfLoader RmfRoot) (o : Z) :
  offset self = o -> with_offset o self = self.
Proof. destruct self; cbn; intros <-; reflexivity. Qed.

Lemma with_offset_twice (self : RmfLoader RmfRoot) (o p : Z) :
  with_offset o (with_offset p self) = with_offset o self.
Proof. reflexivity. Qed.

Lemma bind_faults {A B} (m : M RmfRoot A) (k : A -> M RmfRoot B)
    (self : RmfLoader RmfRoot) (why : fault) :
  m self = Faults why -> bind m k self = Faults why.
Proof. intros H. unfold bind. now rewrite H. Qed.

(** Where [rmf_loader_seek] goes when the sum is a [goffset]. *)
Lemma rmf_loader_seek_returns (self : RmfLoader RmfRoot) (n : Z) :
  G_MINOFFSET <= offset self + n <= G_MAXOFFSET ->
  rmf_loader_seek n self = Returns tt (with_offset (offset self + n) self) [].
Proof.
  intros H. unfold rmf_loader_seek, rmf_loader_set_offset.
  rewrite bind_get. unfold update.
  rewrite (to_goffset_small (offset self + n)) by exact H.
  now rewrite to_goffset_to_gsize.
Qed.

(** X1. A read into a buffer that returns has advanced the offset by
    exactly [n], has stayed within the data ([0 <= off + n <= L]), has
    logged nothing and has changed no other field; the buffer holds the
    region. So a cursor within its data stays within it under reads. *)
Theorem rmf_loader_read_keeps_cursor_in_data
    (self self' : RmfLoader RmfRoot) (bytes buf : list byte) (n : Z)
    (out : option (list byte)) (log : list event) :
  data self = Some bytes ->
  0 <= offset self <= Z.of_nat (List.length bytes) ->
  Z.of_nat (List.length bytes) <= G_MAXOFFSET ->
  0 <= n ->
  rmf_loader_read n (Some buf) self = Returns out self' log ->
  self' = with_offset (offset self + n) self
  /\ 0 <= offset self' <= Z.of_nat (List.length bytes)
  /\ log = []
  /\ out = Some (firstn (Z.to_nat n) (skipn (Z.to_nat (offset self)) bytes)
                 ++ skipn (Z.to_nat n) buf)%list.
Proof.
  intros Hdata Hoff Hsize Hn Hrun.
  destruct (Z.eq_dec n 0) as [->|Hnz].
  - rewrite (rmf_loader_read_inside self bytes buf 0 Hdata) in Hrun;
      try lia.
    injection Hrun as <- <- <-. cbn [offset with_offset].
    repeat split; lia.
  - destruct (Z.lt_ge_cases (Z.of_nat (List.length bytes)) (offset self + n))
      as [Hout|Hin].
    + rewrite (rmf_loader_read_outside self bytes buf n Hdata) in Hrun;
        try lia. discriminate Hrun.
    + destruct (Z.lt_ge_cases (Z.of_nat (List.length buf)) n) as [Hshort|Hlong].
      * exfalso. revert Hrun.
        unfold rmf_loader_read, bind, get. rewrite Hdata.
        rewrite to_gsize_small by (unfold G_MAXOFFSET, G_MAXSIZE in *; lia).
        rewrite g_bytes_get_region_inside
          by (unfold G_MAXOFFSET, G_MAXSIZE in *; lia).
        unfold memcpy. destruct (Z.eqb_spec n 0); [lia|].
        destruct (Z.ltb_spec (Z.of_nat (List.length buf)) n); [|lia].
        rewrite orb_true_r. discriminate.
      * rewrite (rmf_loader_read_inside self bytes buf n Hdata) in Hrun;
          try lia.
        injection Hrun as <- <- <-. cbn [offset with_offset].
        repeat split; lia.
Qed.

(** X2. A read of one byte or more from an offset that is negative, or from
    which [n] bytes reach beyond the data, never returns: the region is
    NULL and [memcpy] reads through it. With C2 this settles every read
    into a buffer that is large enough. *)
Theorem rmf_loader_read_outside_data
    (self : RmfLoader RmfRoot) (bytes buf : list byte) (n : Z) :
  data self = Some bytes ->
  Z.of_nat (List.length bytes) <= G_MAXOFFSET ->
  G_MINOFFSET <= offset self <= G_MAXOFFSET ->
  0 < n ->
  offset self < 0 \/ Z.of_nat (List.length bytes) < offset self + n ->
  rmf_loader_read n (Some buf) self = Faults NullRead.
Proof.
  intros Hdata Hsize Hrange Hn Hwhere.
  destruct (Z.lt_ge_cases (offset self) 0) as [Hneg|Hpos].
  - unfold rmf_loader_read, bind, get. rewrite Hdata.
    rewrite to_gsize_negative by (unfold G_MINOFFSET in *; lia).
    rewrite g_bytes_get_region_outside
      by (unfold G_MINOFFSET, G_MAXOFFSET in *; lia).
    unfold memcpy. destruct (Z.eqb_spec n 0); [lia|reflexivity].
  - destruct Hwhere as [Hneg|Hout]; [lia|].
    apply (rmf_loader_read_outside self bytes buf n Hdata); lia.
Qed.

(** X3. Two reads in a row are one read: [n] bytes and then [m] bytes,
    both within the data, give the bytes that a single read of [n + m]
    gives, and leave the same loader. *)
Theorem rmf_loader_read_twice
    (self : RmfLoader RmfRoot) (bytes buf1 buf2 buf : list byte) (n m : Z) :
  data self = Some bytes ->
  0 <= offset self -> 0 <= n -> 0 <= m ->
  offset self + n + m <= Z.of_nat (List.length bytes) ->
  Z.of_nat (List.length bytes) <= G_MAXOFFSET ->
  Z.of_nat (List.length buf1) = n ->
  Z.of_nat (List.length buf2) = m ->
  Z.of_nat (List.length buf) = n + m ->
  (first <- rmf_loader_read n (Some buf1) ;;
   second <- rmf_loader_read m (Some buf2) ;;
   ret (contents first ++ contents second)%list) self
  = (both <- rmf_loader_read (n + m) (Some buf) ;; ret (contents both)) self.
Proof.
  intros Hdata Hoff Hn Hm Hend Hsize Hb1 Hb2 Hb.
  rewrite (bind_returns _ _ _ _ _ _
             (rmf_loader_read_inside self bytes buf1 n Hdata Hoff Hn
                ltac:(lia) Hsize ltac:(lia))).
  rewrite (bind_returns _ _ _ _ _ _
             (rmf_loader_read_inside (with_offset (offset self + n) self)
                bytes buf2 m Hdata ltac:(cbn; lia) Hm ltac:(cbn; lia) Hsize
                ltac:(lia))).
  rewrite (bind_returns _ _ _ _ _ _
             (rmf_loader_read_inside self bytes buf (n + m) Hdata Hoff
                ltac:(lia) ltac:(lia) Hsize ltac:(lia))).
  unfold ret. cbn [contents with_offset offset app].
  rewrite (skipn_all2 buf1), (skipn_all2 buf2), (skipn_all2 buf) by lia.
  rewrite !app_nil_r.
  rewrite (Z2Nat.inj_add n m), firstn_plus, skipn_skipn by lia.
  rewrite (Z2Nat.inj_add (offset self) n) by lia.
  rewrite (Nat.add_comm (Z.to_nat n) (Z.to_nat (offset self))).
  rewrite with_offset_twice. now rewrite Z.add_assoc.
Qed.

(** X4. [rmf_loader_seek] moves the offset by [n], forwards or backwards,
    with no regard for the length of the data, and two seeks are the seek
    of their sum, as long as the offsets are [goffset] values. *)
Theorem rmf_loader_seek_adds
    (self : RmfLoader RmfRoot) (a b : Z) :
  G_MINOFFSET <= offset self + a <= G_MAXOFFSET ->
  G_MINOFFSET <= offset self + a + b <= G_MAXOFFSET ->
  (rmf_loader_seek a ;;; rmf_loader_seek b) self
  = Returns tt (with_offset (offset self + a + b) self) []
  /\ rmf_loader_seek (a + b) self
     = Returns tt (with_offset (offset self + a + b) self) [].
Proof.
  intros Ha Hab. split.
  - rewrite (bind_returns _ _ _ _ _ _ (rmf_loader_seek_returns self a Ha)).
    rewrite rmf_loader_seek_returns by (cbn; exact Hab). reflexivity.
  - rewrite rmf_loader_seek_returns by (rewrite Z.add_assoc; exact Hab).
    now rewrite Z.add_assoc.
Qed.

(** X5. Reading [n] bytes and seeking back by [n] leaves the loader as it
    was, so that the same bytes can be read again. *)
Theorem rmf_loader_read_then_seek_back
    (self : RmfLoader RmfRoot) (bytes buf : list byte) (n : Z) :
  data self = Some bytes ->
  0 <= offset self -> 0 <= n ->
  offset self + n <= Z.of_nat (List.length bytes) ->
  Z.of_nat (List.length bytes) <= G_MAXOFFSET ->
  n <= Z.of_nat (List.length buf) ->
  (out <- rmf_loader_read n (Some buf) ;; rmf_loader_seek (- n) ;;; ret out) self
  = Returns (Some (firstn (Z.to_nat n) (skipn (Z.to_nat (offset self)) bytes)
                   ++ skipn (Z.to_nat n) buf)%list) self [].
Proof.
  intros Hdata Hoff Hn Hend Hsize Hbuf.
  rewrite (bind_returns _ _ _ _ _ _
             (rmf_loader_read_inside self bytes buf n Hdata Hoff Hn Hend
                Hsize Hbuf)).
  rewrite (bind_returns _ _ (with_offset (offset self + n) self)
             (with_offset (offset self + n + - n)
                (with_offset (offset self + n) self)) tt []).
  - unfold ret. rewrite with_offset_twice.
    replace (offset self + n + - n) with (offset self) by lia.
    now rewrite with_offset_same.
  - apply rmf_loader_seek_returns. cbn [offset with_offset].
    unfold G_MINOFFSET, G_MAXOFFSET in *. lia.
Qed.

(** ** More on the trace *)

Lemma same_cursor_refl (self : RmfLoader RmfRoot) : same_cursor self self.
Proof. repeat split. Qed.

Lemma same_cursor_trans (a b c : RmfLoader RmfRoot) :
  same_cursor a b -> same_cursor b c -> same_cursor a c.
Proof.
  unfold same_cursor. intros (H1 & H2 & H3 & H4 & H5) (K1 & K2 & K3 & K4 & K5).
  repeat split; congruence.
Qed.

Lemma bind_assoc {A B C} (m : M RmfRoot A) (k : A -> M RmfRoot B)
    (h : B -> M RmfRoot C) (self : RmfLoader RmfRoot) :
  bind (bind m k) h self = bind m (fun a => bind (k a) h) self.
Proof.
  unfold bind. destruct (m self) as [a self1 log1|why]; [|reflexivity].
  destruct (k a self1) as [b self2 log2|why]; [|reflexivity].
  destruct (h b self2) as [c self3 log3|why]; [|reflexivity].
  now rewrite app_assoc.
Qed.

Lemma bind_ext {A B} (m : M RmfRoot A) (k1 k2 : A -> M RmfRoot B)
    (self : RmfLoader RmfRoot) :
  (forall a self1, k1 a self1 = k2 a self1) ->
  bind m k1 self = bind m k2 self.
Proof.
  intros H. unfold bind.
  destruct (m self) as [a self1 log1|why]; [|reflexivity].
  now rewrite H.
Qed.

(** Running one list of calls after another is running their
    concatenation. *)
Lemma trace_run_app (calls1 calls2 : list trace_call) (self : RmfLoader RmfRoot) :
  trace_run vprintf (calls1 ++ calls2) self
  = (trace_run vprintf calls1 ;;; trace_run vprintf calls2) self.
Proof.
  revert self. induction calls1 as [|c rest IH]; intros self.
  - cbn [app trace_run]. now rewrite bind_ret.
  - cbn [app trace_run]. rewrite bind_assoc.
    apply bind_ext. intros _ self1. apply IH.
Qed.

Lemma depth_after_deeper (body : list trace_call) :
  forall d k j,
    depth_after d body = Some k -> depth_after (d + j) body = Some (k + j)%nat.
Proof.
  induction body as [|c rest IH]; intros d k j Hd.
  - injection Hd as <-. reflexivity.
  - destruct c as [tag ap|tag content ap|]; cbn [depth_after] in Hd |- *.
    + apply (IH (S d) k j Hd).
    + now apply IH.
    + destruct d as [|d']; [discriminate|]. apply (IH d' k j Hd).
Qed.

Lemma max_depth_deeper (body : list trace_call) :
  forall d k j,
    depth_after d body = Some k ->
    max_depth (d + j) body = (max_depth d body + j)%nat.
Proof.
  induction body as [|c rest IH]; intros d k j Hd; [reflexivity|].
  destruct c as [tag ap|tag content ap|]; cbn [depth_after max_depth] in Hd |- *.
  - change (S (d + j)) with (S d + j)%nat.
    rewrite (IH (S d) k j Hd). lia.
  - now apply (IH d k).
  - destruct d as [|d']; [discriminate|].
    cbn [Nat.add Nat.pred]. rewrite (IH d' k j Hd). lia.
Qed.

(** Under more open scopes the specification's trace prints the same
    elements, each so many levels deeper. *)
Lemma spec_lines_deeper (body : list trace_call) :
  forall inner outer k,
    depth_after (List.length inner) body = Some k ->
    spec_lines vprintf (inner ++ outer) body
    = List.map (deepen (List.length outer)) (spec_lines vprintf inner body).
Proof.
  induction body as [|c rest IH]; intros inner outer k Hd; [reflexivity|].
  destruct c as [tag ap|tag content ap|];
    cbn [depth_after spec_lines List.map] in Hd |- *.
  - rewrite app_comm_cons, (IH (tag :: inner) outer k Hd).
    unfold deepen at 2. cbn [fst snd]. now rewrite length_app.
  - rewrite (IH inner outer k Hd).
    unfold deepen at 2. cbn [fst snd]. now rewrite length_app.
  - destruct inner as [|t inner']; [discriminate|].
    cbn [app List.map]. rewrite (IH inner' outer k Hd).
    unfold deepen at 2. cbn [fst snd]. now rewrite length_app.
Qed.

Lemma spec_open_tags_deeper (body : list trace_call) :
  forall inner outer k,
    depth_after (List.length inner) body = Some k ->
    spec_open_tags (inner ++ outer) body
    = option_map (fun o => (o ++ outer)%list) (spec_open_tags inner body).
Proof.
  induction body as [|c rest IH]; intros inner outer k Hd; [reflexivity|].
  destruct c as [tag ap|tag content ap|];
    cbn [depth_after spec_open_tags] in Hd |- *.
  - apply (IH (tag :: inner) outer k Hd).
  - apply (IH inner outer k Hd).
  - destruct inner as [|t inner']; [discriminate|].
    apply (IH inner' outer k Hd).
Qed.



(** X7. A scope around a balanced body: [rmf_loader_log_begin], the body,
    [rmf_loader_log_end], from any tag stack. The loader comes back as it
    was; the opening and the closing line stand at the depth of the stack,
    and between them the body prints what it prints on its own, one level
    deeper than the scope. *)
Theorem scope_around_balanced_body
    (self : RmfLoader RmfRoot) (tag : string) (ap : list attr)
    (body : list trace_call) :
  balanced body = true ->
  Z.of_nat (S (List.length (tag_stack self)) + max_depth 0 body) < 2 ^ 31 ->
  let d := List.length (tag_stack self) in
  let opening := trace_line self (d, "<" ++ make_tag vprintf tag ap ++ ">") in
  let closing := trace_line self (d, "</" ++ tag ++ ">") in
  trace_run vprintf (LogBegin tag ap :: body ++ [LogEnd]) self =
    Returns tt self
      (opening
       :: List.map (trace_line self)
            (List.map (deepen (S d)) (spec_lines vprintf [] body))
       ++ [closing])%list.
Proof.
  intros Hbal Hmax d opening closing. subst d opening closing.
  unfold balanced in Hbal.
  destruct (depth_after 0 body) as [[|k]|] eqn:Hd; try discriminate.
  destruct (spec_open_tags_depth body [] 0 Hd) as (open' & Hopen & Hnil).
  apply length_zero_iff_nil in Hnil. subst open'.
  set (s := tag_stack self) in *.
  set (outer := (tag :: rev s)%list).
  assert (Hlen : List.length outer = S (List.length s))
    by (subst outer; cbn [List.length]; now rewrite length_rev).
  assert (Hbody :
    trace_run vprintf body (with_tag_stack (s ++ [tag]) self)
    = Returns tt (with_tag_stack (s ++ [tag]) self)
        (List.map (trace_line self)
           (List.map (deepen (S (List.length s))) (spec_lines vprintf [] body)))).
  { rewrite (trace_run_refines body outer outer).
    - rewrite with_tag_stack_twice, trace_line_with_tag_stack.
      pose proof (spec_lines_deeper body [] outer 0 Hd) as Hlines.
      cbn [app] in Hlines. rewrite Hlines, Hlen.
      subst outer. cbn [rev]. now rewrite rev_involutive.
    - subst outer. cbn [rev tag_stack with_tag_stack].
      now rewrite rev_involutive.
    - rewrite Hlen.
      pose proof (max_depth_deeper body 0 0 (S (List.length s)) Hd) as Hdeep.
      cbn [Nat.add] in Hdeep. rewrite Hdeep. lia.
    - pose proof (spec_open_tags_deeper body [] outer 0 Hd) as Htags.
      cbn [app] in Htags. rewrite Htags, Hopen. reflexivity. }
  cbn [trace_run trace_step].
  rewrite (bind_returns _ _ _ _ _ _ (log_begin_returns self tag ap ltac:(fold s; lia))).
  fold s. rewrite trace_run_app.
  rewrite (bind_returns _ _ _ _ _ _ Hbody).
  cbn [trace_run trace_step].
  rewrite (bind_returns _ _ _ _ _ _
             (log_end_returns (with_tag_stack (s ++ [tag]) self) s tag
                eq_refl ltac:(lia))).
  unfold ret.
  rewrite with_tag_stack_twice, trace_line_with_tag_stack.
  rewrite (with_tag_stack_same self s eq_refl).
  cbn [app]. rewrite ?app_nil_r. reflexivity.
Qed.

(** [rmf_loader_log_begin] returns with the tag pushed while the stack has
    room. *)
Lemma log_begin_pushes (self : RmfLoader RmfRoot) (tag : string) (ap : list attr) :
  Z.of_nat (List.length (tag_stack self)) < G_MAXUINT ->
  exists log,
    rmf_loader_log_begin vprintf tag ap self
    = Returns tt (with_tag_stack (tag_stack self ++ [tag]) self) log.
Proof.
  intros Hroom.
  unfold rmf_loader_log_begin, g_ptr_array_add, bind, get, update, g_info.
  destruct (Z.leb_spec G_MAXUINT (Z.of_nat (List.length (tag_stack self))));
    [lia|].
  cbn. eexists. reflexivity.
Qed.

(** [rmf_loader_log_end] returns on every loader, with no more tags than
    it found. *)
Lemma log_end_shrinks (self : RmfLoader RmfRoot) :
  exists self' log,
    rmf_loader_log_end self = Returns tt self' log
    /\ same_cursor self self'
    /\ (List.length (tag_stack self') <= List.length (tag_stack self))%nat.
Proof.
  set (i := Z.to_nat (to_guint (tag_stack_len self - 1))).
  unfold rmf_loader_log_end, g_ptr_array_remove_index, bind, get, update,
    emit, ret, g_info.
  destruct (Z.ltb_spec (to_guint (tag_stack_len self - 1))
                       (Z.of_nat (List.length (tag_stack self)))) as [Hin|Hout].
  - exists (with_tag_stack (firstn i (tag_stack self)
                            ++ skipn (S i) (tag_stack self)) self).
    eexists. split; [reflexivity|].
    split; [apply same_cursor_with_tag_stack|].
    cbn [tag_stack with_tag_stack].
    rewrite length_app, length_firstn, length_skipn. lia.
  - exists self. eexists. split; [reflexivity|].
    split; [apply same_cursor_refl|lia].
Qed.

(** X8. Whatever the calls, balanced or not, the trace returns and leaves
    [source], [data], [offset], [version] and [root] alone, as long as the
    tag stack cannot reach [G_MAXUINT] tags: a close that meets no open
    scope does not stop the run. *)
Theorem trace_run_keeps_cursor
    (calls : list trace_call) (self : RmfLoader RmfRoot) :
  Z.of_nat (List.length (tag_stack self) + List.length calls) <= G_MAXUINT ->
  exists self' log,
    trace_run vprintf calls self = Returns tt self' log
    /\ same_cursor self self'
    /\ (List.length (tag_stack self')
        <= List.length (tag_stack self) + List.length calls)%nat.
Proof.
  revert self. induction calls as [|c rest IH]; intros self Hroom.
  - exists self, []. split; [reflexivity|]. split; [apply same_cursor_refl|lia].
  - cbn [List.length] in Hroom.
    assert (Hstep : exists self1 log1,
               trace_step vprintf c self = Returns tt self1 log1
               /\ same_cursor self self1
               /\ (List.length (tag_stack self1)
                   <= S (List.length (tag_stack self)))%nat).
    { destruct c as [tag ap|tag content ap|]; cbn [trace_step].
      - destruct (log_begin_pushes self tag ap ltac:(lia)) as (log1 & H1).
        eexists; exists log1. split; [exact H1|].
        split; [apply same_cursor_with_tag_stack|].
        cbn [tag_stack with_tag_stack]. rewrite length_app. cbn. lia.
      - exists self. eexists. split.
        + unfold rmf_loader_log_oneline, bind, get, g_info. reflexivity.
        + split; [apply same_cursor_refl|lia].
      - destruct (log_end_shrinks self) as (self1 & log1 & H1 & Hc & Hl).
        exists self1, log1. split; [exact H1|]. split; [exact Hc|lia]. }
    destruct Hstep as (self1 & log1 & H1 & Hc1 & Hl1).
    destruct (IH self1 ltac:(lia)) as (self2 & log2 & H2 & Hc2 & Hl2).
    exists self2, (log1 ++ log2)%list. cbn [trace_run].
    rewrite (bind_returns _ _ _ _ _ _ H1), H2.
    split; [reflexivity|]. split; [exact (same_cursor_trans _ _ _ Hc1 Hc2)|].
    cbn [List.length]. lia.
Qed.

Lemma length_spaces_append (k : nat) (str : string) :
  String.length (spaces k ++ str) = (k + String.length str)%nat.
Proof.
  induction k as [|k IH]; [reflexivity|].
  cbn [spaces append String.length Nat.add]. now rewrite IH.
Qed.

(** X9. The width of the indentation is the product [n * INDENT_WIDTH] of
    [unsigned int], so it is taken modulo 2^32: the text is never changed,
    and [2^31] levels more indent alike. *)
Theorem indent_wraps (n : Z) (str : string) :
  indent n str
  = spaces (Z.to_nat ((n * INDENT_WIDTH) mod 2 ^ 32)) ++ str
  /\ String.length (indent n str)
     = (Z.to_nat ((n * INDENT_WIDTH) mod 2 ^ 32) + String.length str)%nat
  /\ indent (n + 2 ^ 31) str = indent n str.
Proof.
  assert (H : indent n str
              = spaces (Z.to_nat ((n * INDENT_WIDTH) mod 2 ^ 32)) ++ str).
  { unfold indent, to_guint. apply g_strjoin_spaces. }
  split; [exact H|]. split.
  - rewrite H. apply length_spaces_append.
  - unfold indent, to_guint, INDENT_WIDTH.
    replace ((n + 2 ^ 31) * 2) with (n * 2 + 1 * 2 ^ 32) by lia.
    now rewrite Z_mod_plus_full.
Qed.

(** ** More on loading *)

(** A read into a buffer looks at [data] and [offset] only, and writes
    [offset] only. *)
Lemma rmf_loader_read_shape (self : RmfLoader RmfRoot) (n : Z) (buf : list byte) :
  rmf_loader_read n (Some buf) self =
    match data self with
    | None => Faults NullRead
    | Some b =>
        match memcpy buf (g_bytes_get_region b 1 (to_gsize (offset self)) n) n with
        | inl why => Faults why
        | inr buf' =>
            Returns (Some buf') (with_offset (to_goffset (offset self + n)) self) []
        end
    end.
Proof.
  unfold rmf_loader_read, bind, get, fail, update, ret.
  destruct (data self) as [b|]; [|reflexivity].
  now destruct (memcpy buf (g_bytes_get_region b 1 (to_gsize (offset self)) n) n).
Qed.

(** X10. When the file cannot be loaded and the caller gave no place for
    the error ([error] is null), the failure goes unnoticed: the loader
    takes the null data and the first read goes through it. The call does
    not return. *)
Theorem load_from_file_without_error_location
    (file : GFile) (e : GError) (self : RmfLoader RmfRoot) :
  file_contents file = inl e ->
  rmf_loader_load_from_file vprintf root_new file None self = Faults NullRead.
Proof.
  intros Hfile.
  unfold rmf_loader_load_from_file, g_file_load_bytes. rewrite Hfile.
  cbv iota beta. rewrite !bind_update.
  unfold rmf_loader_set_offset. rewrite bind_update.
  apply bind_faults. unfold rmf_read_float. apply bind_faults.
  now rewrite rmf_loader_read_shape.
Qed.

(** X11. A file shorter than the seven bytes of the header loads, and the
    call does not return: the read of the version, or that of the magic
    number, reaches beyond the data. No root is built. *)
Theorem load_from_file_truncated
    (file : GFile) (error : option (option GError)) (bytes : list byte)
    (self : RmfLoader RmfRoot) :
  file_contents file = inr bytes ->
  (forall e, error <> Some (Some e)) ->
  Z.of_nat (List.length bytes) < 7 ->
  rmf_loader_load_from_file vprintf root_new file error self = Faults NullRead.
Proof.
  intros Hfile Herr Hlen.
  unfold rmf_loader_load_from_file.
  assert (Hload : g_file_load_bytes file error = (Some bytes, error)).
  { unfold g_file_load_bytes. now rewrite Hfile. }
  set (self0 := with_offset 0
                  (with_data (Some bytes)
                     (with_source (file_display_basename file) self))).
  destruct error as [[e|]|]; [now elim (Herr e)| |];
    rewrite Hload; cbv iota beta;
    rewrite !bind_update; unfold rmf_loader_set_offset; rewrite bind_update;
    change (with_offset (to_goffset 0) _) with self0;
    (destruct (Z.lt_ge_cases (Z.of_nat (List.length bytes)) 4) as [Hshort|Hfour];
     [ apply bind_faults; unfold rmf_read_float; apply bind_faults;
       apply (rmf_loader_read_outside self0 bytes);
       cbn [data offset self0 with_offset];
       try reflexivity; unfold G_MAXOFFSET; lia
     | rewrite (bind_returns _ _ _ _ _ _
                  (rmf_read_float_returns self0 bytes eq_refl eq_refl
                     ltac:(unfold G_MAXOFFSET; lia)));
       rewrite bind_update, bind_get;
       assert (Hmagic : rmf_loader_read 3 (Some [x00; x00; x00])
                          (with_version (header_version bytes) (with_offset 4 self0))
                        = Faults NullRead)
         by (apply (rmf_loader_read_outside _ bytes);
             cbn [data offset self0 with_offset with_version];
             try reflexivity; unfold G_MAXOFFSET; lia);
       cbn [version with_version];
       (destruct (version_unsupported (header_version bytes));
        [ unfold bind at 1; unfold emit at 1 | rewrite bind_ret ];
        now rewrite (bind_faults _ _ _ _ Hmagic)) ]).
Qed.

(** X12. With a root builder that leaves the tag stack as it found it, the
    load closes the document scope it opened: the last line is [</rmf>] at
    the depth of the opening line and at the offset the builder has
    reached, the tag stack is as before the call, and the loader keeps what
    the builder left, with the root stored. [rmf_loader_get_root] then
    gives that root, and [rmf_loader_get_version] the version the builder
    left. *)
Theorem load_from_file_balanced_builder
    (file : GFile) (error : option (option GError)) (bytes : list byte)
    (self self2 : RmfLoader RmfRoot) (r : option RmfRoot) (log_root : list event) :
  file_contents file = inr bytes ->
  (forall e, error <> Some (Some e)) ->
  7 <= Z.of_nat (List.length bytes) <= G_MAXOFFSET ->
  Z.of_nat (List.length (tag_stack self)) < 2 ^ 31 ->
  root_new (header_done file bytes self) = Returns r self2 log_root ->
  tag_stack self2 = (tag_stack self ++ ["rmf"])%list ->
  let loaded := with_tag_stack (tag_stack self) (with_root r self2) in
  let closing := trace_line self2 (List.length (tag_stack self), "</rmf>") in
  exists log_header,
    rmf_loader_load_from_file vprintf root_new file error self =
      Returns error loaded
        (log_header ++ document_open_line vprintf file bytes self
                    :: log_root ++ [closing])%list
    /\ rmf_loader_get_root loaded = r
    /\ rmf_loader_get_version loaded = version self2.
Proof.
  intros Hfile Herr Hlen Hstack Hroot Hbal loaded closing.
  destruct (load_from_file_returns file error bytes self self2 r log_root
              Hfile Herr Hlen Hstack Hroot)
    as (self3 & log_end & Hend & _ & Hrun).
  rewrite (log_end_returns (with_root r self2) (tag_stack self) "rmf") in Hend
    by (cbn [tag_stack with_root]; assumption).
  injection Hend as <- <-.
  eexists. split; [|split; reflexivity].
  rewrite Hrun, app_assoc. reflexivity.
Qed.

(** X13. A loader can be used again: on a file that loads, what
    [rmf_loader_load_from_file] does depends on the tag stack and the root
    of the loader only. The source, the data, the offset and the version
    of an earlier load are replaced before they are looked at. *)
Theorem load_from_file_forgets
    (file : GFile) (error : option (option GError)) (bytes : list byte)
    (self other : RmfLoader RmfRoot) :
  file_contents file = inr bytes ->
  (forall e, error <> Some (Some e)) ->
  tag_stack other = tag_stack self ->
  root other = root self ->
  rmf_loader_load_from_file vprintf root_new file error other
  = rmf_loader_load_from_file vprintf root_new file error self.
Proof.
  intros Hfile Herr Htags Hroot.
  unfold rmf_loader_load_from_file.
  assert (Hload : g_file_load_bytes file error = (Some bytes, error)).
  { unfold g_file_load_bytes. now rewrite Hfile. }
  assert (Hsame : forall v o,
             with_version v
               (with_offset o
                  (with_offset 0
                     (with_data (Some bytes)
                        (with_source (file_display_basename file) other))))
             = with_version v
                 (with_offset o
                    (with_offset 0
                       (with_data (Some bytes)
                          (with_source (file_display_basename file) self))))).
  { intros v o. unfold with_version, with_offset, with_data, with_source.
    cbn [source data offset tag_stack version root].
    now rewrite Htags, Hroot. }
  destruct error as [[e|]|]; [now elim (Herr e)| |];
    rewrite Hload; cbv iota beta;
    rewrite !bind_update; unfold rmf_loader_set_offset; rewrite !bind_update;
    change (to_goffset 0) with 0;
    unfold rmf_read_float; rewrite !bind_assoc;
    unfold bind at 1; symmetry; unfold bind at 1; symmetry;
    rewrite !rmf_loader_read_shape;
    cbn [data offset with_offset with_data];
    (destruct (memcpy [x00; x00; x00; x00]
                 (g_bytes_get_region bytes 1 (to_gsize 0) 4) 4) as [why|buf'];
     [ reflexivity
     | rewrite !bind_ret, !bind_update, !Hsame; reflexivity ]).
Qed.

(** ** The properties of the object *)

(** X14. [rmf_loader_set_property] always returns, and writes one field at
    most, the one that its id names: [source], [data], [offset] or [root].
    The version and the tag stack cannot be written through it. Every other
    id, [PROP_VERSION] among them, ends in the warning and leaves the
    loader as it is. *)
Theorem set_property_writes_one_field
    (property_id : Z) (value : GValue RmfRoot) (self : RmfLoader RmfRoot) :
  exists status self' log,
    rmf_loader_set_property property_id value self = Returns status self' log
    /\ (property_id = PROP_SOURCE \/ source self' = source self)
    /\ (property_id = PROP_DATA \/ data self' = data self)
    /\ (property_id = PROP_OFFSET \/ offset self' = offset self)
    /\ (property_id = PROP_ROOT \/ root self' = root self)
    /\ version self' = version self
    /\ tag_stack self' = tag_stack self
    /\ (status = InvalidPropertyId <->
        ~ In property_id [PROP_SOURCE; PROP_DATA; PROP_OFFSET; PROP_ROOT])
    /\ (status = InvalidPropertyId -> self' = self /\ log = []).
Proof.
  unfold rmf_loader_set_property.
  destruct (Z.eqb_spec property_id PROP_SOURCE) as [Hs|Hs];
    [|destruct (Z.eqb_spec property_id PROP_DATA) as [Hd|Hd];
      [|destruct (Z.eqb_spec property_id PROP_OFFSET) as [Ho|Ho];
        [|destruct (Z.eqb_spec property_id PROP_ROOT) as [Hr|Hr]]]].
  1-4: destruct value; cbn; do 3 eexists; (split; [reflexivity|]);
    repeat split; auto; try discriminate;
    try (intros Hn; exfalso; apply Hn; cbn; intuition congruence).
  exists InvalidPropertyId, self, []. split; [reflexivity|].
  repeat split; auto.
  all: try (intros Hin; cbn in Hin; intuition congruence).
  all: try (cbn; intuition congruence).
Qed.

(** X15. What is written to the offset or the root property is what is
    read back from it, [rmf_loader_set_offset] writes the offset property,
    [rmf_loader_get_version] and [rmf_loader_get_root] read the fields, and
    [rmf_loader_get_property] stores a value for [PROP_OFFSET],
    [PROP_VERSION] and [PROP_ROOT] and for no other id: the source and the
    data cannot be read back. *)
Theorem property_round_trip
    (self : RmfLoader RmfRoot) (z : Z) (o : option RmfRoot) (property_id : Z) :
  (exists self',
      rmf_loader_set_property PROP_OFFSET (GV_int64 z) self = Returns Handled self' []
      /\ rmf_loader_get_property PROP_OFFSET self' = Some (GV_int64 z)
      /\ rmf_loader_set_offset z self = Returns tt (with_offset (to_goffset z) self) []
      /\ rmf_loader_set_property PROP_OFFSET (GV_int64 (to_goffset z)) self
         = Returns Handled (with_offset (to_goffset z) self) [])
  /\ (exists self',
        rmf_loader_set_property PROP_ROOT (GV_object o) self = Returns Handled self' []
        /\ rmf_loader_get_property PROP_ROOT self' = Some (GV_object o)
        /\ rmf_loader_get_root self' = o)
  /\ rmf_loader_get_version self = version self
  /\ rmf_loader_get_root self = root self
  /\ (rmf_loader_get_property property_id self = None <->
      ~ In property_id [PROP_OFFSET; PROP_VERSION; PROP_ROOT]).
Proof.
  split; [|split; [|split; [|split]]].
  - exists (with_offset z self). repeat split.
  - exists (with_root o self). repeat split.
  - reflexivity.
  - reflexivity.
  - unfold rmf_loader_get_property.
    destruct (Z.eqb_spec property_id PROP_OFFSET) as [Ho|Ho];
      [|destruct (Z.eqb_spec property_id PROP_VERSION) as [Hv|Hv];
        [|destruct (Z.eqb_spec property_id PROP_ROOT) as [Hr|Hr]]].
    1-3: split; [discriminate|]; intros Hin; exfalso; apply Hin; cbn;
      intuition congruence.
    split; [|reflexivity]. intros _ Hin. cbn in Hin. intuition congruence.
Qed.

End Properties.

(** * Closed instances *)

Lemma rmf_loader_read_in_bounds_witness :
  exists copied,
    rmf_loader_read 2 (Some [x00; x00; x00]) two_byte_loader =
      Returns (Some (copied ++ [x00])%list) (with_offset 2 two_byte_loader) []
    /\ List.length copied = 2%nat
    /\ forall i, (i < 2)%nat -> nth_error copied i = nth_error [x01; x02] i.
Proof.
  apply (rmf_loader_read_in_bounds unit two_byte_loader [x01; x02] [x00; x00; x00] 2).
  - reflexivity.
  - simpl; lia.
  - lia.
  - simpl; lia.
  - unfold G_MAXOFFSET; simpl; lia.
  - simpl; lia.
Defined.

(** Version 0.5 is reported and the load goes on to the root. *)
Lemma load_from_file_version_check_witness :
  exists self3 log,
    rmf_loader_load_from_file sample_vprintf sample_root_new odd_file
      (Some None) fresh_loader =
      Returns (Some None) self3
        (Printerr "Unsupported RMF version %g (only versions %g through %g are supported)"
           :: log)
    /\ root self3 = Some tt.
Proof.
  destruct (load_from_file_version_check unit sample_vprintf sample_root_new
              odd_file (Some None) odd_bytes fresh_loader odd_built (Some tt)
              odd_root_log)
    as (self3 & log_end & Hroot & Hout & _).
  - reflexivity.
  - intros e; discriminate.
  - unfold G_MAXOFFSET; simpl; lia.
  - simpl; lia.
  - reflexivity.
  - exists self3. eexists. split; [|exact Hroot].
    rewrite Hout by (left; reflexivity). reflexivity.
Defined.

(** The magic number XYZ is reported and the load goes on to the root. *)
Lemma load_from_file_magic_check_witness :
  exists self3 log1 log2,
    rmf_loader_load_from_file sample_vprintf sample_root_new odd_file
      (Some None) fresh_loader =
      Returns (Some None) self3
        (log1 ++ Printerr (invalid_magic_message [x58; x59; x5a])
              :: Info ("b.rmf+00000007x: <rmf version=" ++ dquote ++ "%g"
                       ++ dquote ++ ">") :: log2)%list
    /\ root self3 = Some tt.
Proof.
  destruct (load_from_file_magic_check unit sample_vprintf sample_root_new
              odd_file (Some None) odd_bytes fresh_loader odd_built (Some tt)
              odd_root_log)
    as (self3 & log_end & Hroot & _ & _ & Hbad & _).
  - reflexivity.
  - intros e; discriminate.
  - unfold G_MAXOFFSET; simpl; lia.
  - simpl; lia.
  - reflexivity.
  - exists self3. eexists. eexists. split; [|exact Hroot].
    rewrite Hbad by discriminate. reflexivity.
Defined.

(** A file that cannot be read leaves the fresh loader fresh. *)
Lemma load_from_file_load_error_witness :
  rmf_loader_load_from_file sample_vprintf sample_root_new missing_file
    (Some None) fresh_loader =
    Returns (Some (Some (mkGError "g-io-error-quark" 1 "No such file or directory")))
            fresh_loader [].
Proof.
  apply (load_from_file_load_error unit sample_vprintf sample_root_new
           missing_file).
  reflexivity.
Defined.

(** Two nested scopes with two leaves, ten bytes into the data. *)
Lemma balanced_trace_indentation_witness :
  trace_run sample_vprintf sample_calls loader_at_10 =
    Returns tt loader_at_10
      [Info ("a.rmf+00000010x: <a k=" ++ dquote ++ "v" ++ dquote ++ ">");
       Info "a.rmf+00000010x:   <b/>";
       Info "a.rmf+00000010x:   <c>";
       Info "a.rmf+00000010x:     <d>hi</d>";
       Info "a.rmf+00000010x:   </c>";
       Info "a.rmf+00000010x: </a>"].
Proof.
  destruct (balanced_trace_indentation unit sample_vprintf sample_calls loader_at_10)
    as [Hrun _].
  - reflexivity.
  - reflexivity.
  - simpl; lia.
  - rewrite Hrun. reflexivity.
Defined.

(** A leaf two scopes deep is indented by four spaces. *)
Lemma log_oneline_one_line_witness :
  rmf_loader_log_oneline sample_vprintf "texture" (Some "brick") [] nested_loader =
    Returns tt nested_loader
      [Info "a.rmf+00000010x:     <texture>brick</texture>"].
Proof.
  destruct (log_oneline_one_line unit sample_vprintf nested_loader "texture"
              (Some "brick") [])
    as [Hrun _].
  - simpl; lia.
  - rewrite Hrun. reflexivity.
Defined.

(** * The code at failing inputs *)

(** C5, at a failing input: [rmf_loader_log_end] on the loader that
    [rmf_loader_new] makes, no scope open. The call returns to its caller:
    GLib logs a critical message for the index [G_MAXUINT], the stack stays
    empty, and a closing line for no tag at all is printed at depth 0. *)
Theorem log_end_without_open :
  rmf_loader_log_end fresh_loader =
    Returns tt fresh_loader
      [Critical "ptr_array_remove_index: assertion 'index_ < rarray->len' failed";
       Info "(null)+00000000x: </(null)>"]
  /\ to_guint (tag_stack_len fresh_loader - 1) = G_MAXUINT.
Proof.
  split; reflexivity.
Qed.

(** C7, at a failing input: ten bytes into the data the three kinds of line
    carry the offset as the decimal number 00000010 before the letter x,
    where the specification's eight hexadecimal digits are 0000000a. *)
Theorem log_lines_offset_in_decimal :
  trace_run sample_vprintf
    [LogBegin "a" []; LogOneline "b" None []; LogEnd] loader_at_10 =
    Returns tt loader_at_10
      [Info "a.rmf+00000010x: <a>";
       Info "a.rmf+00000010x:   <b/>";
       Info "a.rmf+00000010x: </a>"]
  /\ spec_log_message loader_at_10 "<a>" = "a.rmf+0000000ax: <a>"
  /\ log_message loader_at_10 "<a>" <> spec_log_message loader_at_10 "<a>".
Proof.
  split; [reflexivity|]. split; [reflexivity|].
  vm_compute. discriminate.
Qed.

(** * More closed instances *)

(** Two bytes read from the middle of eight: the read returns, and what it
    returns is what the invariant says. *)
Lemma rmf_loader_read_keeps_cursor_in_data_witness :
  rmf_loader_read 2 (Some [x00; x00]) mid_loader
  = Returns (Some [x05; x06]) (with_offset 6 mid_loader) []
  /\ (with_offset 6 mid_loader = with_offset (4 + 2) mid_loader
      /\ 0 <= offset (with_offset 6 mid_loader) <= 8
      /\ @nil event = []
      /\ Some [x05; x06] = Some [x05; x06]).
Proof.
  split; [reflexivity|].
  apply (rmf_loader_read_keeps_cursor_in_data unit mid_loader
           (with_offset 6 mid_loader)
           [x01; x02; x03; x04; x05; x06; x07; x08] [x00; x00] 2
           (Some [x05; x06]) []).
  - reflexivity.
  - simpl; lia.
  - unfold G_MAXOFFSET; simpl; lia.
  - lia.
  - reflexivity.
Defined.

(** A read one byte before the data. *)
Lemma rmf_loader_read_outside_data_witness :
  rmf_loader_read 1 (Some [x00]) (with_offset (-1) two_byte_loader)
  = Faults NullRead.
Proof.
  apply (rmf_loader_read_outside_data unit (with_offset (-1) two_byte_loader)
           [x01; x02] [x00] 1).
  - reflexivity.
  - unfold G_MAXOFFSET; simpl; lia.
  - unfold G_MINOFFSET, G_MAXOFFSET; simpl; lia.
  - lia.
  - left. simpl; lia.
Defined.

(** One byte and then three, or four at once, from the middle of eight. *)
Lemma rmf_loader_read_twice_witness :
  (first <- rmf_loader_read 1 (Some [x00]) ;;
   second <- rmf_loader_read 3 (Some [x00; x00; x00]) ;;
   ret (contents first ++ contents second)%list) mid_loader
  = (both <- rmf_loader_read 4 (Some [x00; x00; x00; x00]) ;;
     ret (contents both)) mid_loader.
Proof.
  apply (rmf_loader_read_twice unit mid_loader
           [x01; x02; x03; x04; x05; x06; x07; x08]
           [x00] [x00; x00; x00] [x00; x00; x00; x00] 1 3).
  - reflexivity.
  - simpl; lia.
  - lia.
  - lia.
  - simpl; lia.
  - unfold G_MAXOFFSET; simpl; lia.
  - reflexivity.
  - reflexivity.
  - reflexivity.
Defined.

(** Back by six and forth by twenty from offset 4: through a negative
    offset to one beyond the eight bytes of data. *)
Lemma rmf_loader_seek_adds_witness :
  (rmf_loader_seek (-6) ;;; rmf_loader_seek 20) mid_loader
  = Returns tt (with_offset 18 mid_loader) []
  /\ rmf_loader_seek 14 mid_loader = Returns tt (with_offset 18 mid_loader) [].
Proof.
  apply (rmf_loader_seek_adds unit mid_loader (-6) 20).
  - unfold G_MINOFFSET, G_MAXOFFSET; simpl; lia.
  - unfold G_MINOFFSET, G_MAXOFFSET; simpl; lia.
Defined.

(** Three bytes read and the cursor put back. *)
Lemma rmf_loader_read_then_seek_back_witness :
  (out <- rmf_loader_read 3 (Some [x00; x00; x00]) ;;
   rmf_loader_seek (-3) ;;; ret out) mid_loader
  = Returns (Some [x05; x06; x07]) mid_loader [].
Proof.
  apply (rmf_loader_read_then_seek_back unit mid_loader
           [x01; x02; x03; x04; x05; x06; x07; x08] [x00; x00; x00] 3).
  - reflexivity.
  - simpl; lia.
  - lia.
  - simpl; lia.
  - unfold G_MAXOFFSET; simpl; lia.
  - simpl; lia.
Defined.


(** A scope around [sample_body], two scopes deep. *)
Lemma scope_around_balanced_body_witness :
  trace_run sample_vprintf (LogBegin "a" [] :: sample_body ++ [LogEnd])
    nested_loader =
    Returns tt nested_loader
      [Info "a.rmf+00000010x:     <a>";
       Info "a.rmf+00000010x:       <b/>";
       Info "a.rmf+00000010x:       <c>";
       Info "a.rmf+00000010x:         <d>hi</d>";
       Info "a.rmf+00000010x:       </c>";
       Info "a.rmf+00000010x:     </a>"].
Proof.
  rewrite (scope_around_balanced_body unit sample_vprintf nested_loader "a" []
             sample_body).
  - reflexivity.
  - reflexivity.
  - simpl; lia.
Defined.

(** Calls with two closes too many still return, the cursor untouched. *)
Lemma trace_run_keeps_cursor_witness :
  exists self' log,
    trace_run sample_vprintf unbalanced_calls loader_at_10 = Returns tt self' log
    /\ same_cursor loader_at_10 self'
    /\ (List.length (tag_stack self') <= 4)%nat.
Proof.
  apply (trace_run_keeps_cursor unit sample_vprintf unbalanced_calls loader_at_10).
  unfold G_MAXUINT; simpl; lia.
Defined.

(** A file that cannot be read, and no place for the error. *)
Lemma load_from_file_without_error_location_witness :
  rmf_loader_load_from_file sample_vprintf sample_root_new missing_file None
    rmf_loader_new = Faults NullRead.
Proof.
  apply (load_from_file_without_error_location unit sample_vprintf
           sample_root_new missing_file
           (mkGError "g-io-error-quark" 1 "No such file or directory")).
  reflexivity.
Defined.

(** A file of five bytes. *)
Lemma load_from_file_truncated_witness :
  rmf_loader_load_from_file sample_vprintf sample_root_new short_file
    (Some None) rmf_loader_new = Faults NullRead.
Proof.
  apply (load_from_file_truncated unit sample_vprintf sample_root_new
           short_file (Some None) [x00; x00; x00; x40; x52]).
  - reflexivity.
  - intros e; discriminate.
  - simpl; lia.
Defined.

(** [good_file] loaded into a new loader by [sample_root_new]. *)
Lemma load_from_file_balanced_builder_witness :
  exists log_header,
    rmf_loader_load_from_file sample_vprintf sample_root_new good_file
      (Some None) rmf_loader_new =
      Returns (Some None)
        (mkLoader (Some "a.rmf") (Some good_bytes) 8 []
           (S754_finite false 8388608 (-22)) (Some tt))
        (log_header
           ++ Info ("a.rmf+00000007x: <rmf version=" ++ dquote ++ "%g"
                    ++ dquote ++ ">")
           :: good_root_log ++ [Info "a.rmf+00000008x: </rmf>"])%list.
Proof.
  destruct (load_from_file_balanced_builder unit sample_vprintf sample_root_new
              good_file (Some None) good_bytes rmf_loader_new good_built
              (Some tt) good_root_log)
    as (log_header & Hrun & _).
  - reflexivity.
  - intros e; discriminate.
  - unfold G_MAXOFFSET; simpl; lia.
  - simpl; lia.
  - reflexivity.
  - reflexivity.
  - exists log_header. rewrite Hrun. reflexivity.
Defined.

(** A loader that has been in use loads [good_file] as a new one does. *)
Lemma load_from_file_forgets_witness :
  rmf_loader_load_from_file sample_vprintf sample_root_new good_file
    (Some None) used_loader
  = rmf_loader_load_from_file sample_vprintf sample_root_new good_file
      (Some None) rmf_loader_new.
Proof.
  apply (load_from_file_forgets unit sample_vprintf sample_root_new good_file
           (Some None) good_bytes rmf_loader_new used_loader).
  - reflexivity.
  - intros e; discriminate.
  - reflexivity.
  - reflexivity.
Defined.
